(** * SchedulerService: a shallow embedding of the scheduling service

    The embedded program is the [SchedulerService] class (the file that
    requires node-cron, the FlowSchedule and Flow models, flowExecutor,
    scheduleCalculator and dynamicInputResolver).  Asynchronous methods are
    embedded as state-and-exception passing functions over the system state
    [Sys]; an [await] is sequencing.  The collaborators whose code is not part
    of the service (the schedule calculator, the input resolver, the flow
    executor and the expression check of the trigger facility) are variables
    of the section that holds the service. *)

From Stdlib Require Import Ascii.
From stdpp Require Import gmap strings list fin_maps pretty.

Open Scope string_scope.
Open Scope Z_scope.

(** ** JavaScript values and errors *)

Module Js.

(** The values the service handles without looking inside: input
    templates, flow data, execution results. *)
#[warnings="-register-all"]
Inductive Val :=
| Undefined
| Null
| Bool (b : bool)
| Num (n : Z)
| Str (s : string)
| Obj (props : list (string * Val)).

Definition truthy (v : Val) : bool :=
  match v with
  | Undefined | Null => false
  | Bool b => b
  | Num n => negb (n =? 0)
  | Str s => negb (String.eqb s "")
  | Obj _ => true
  end.

(** [a || b] *)
Definition or (a b : Val) : Val := if truthy a then a else b.

(** [v.key] on a value that is known not to be null or undefined. *)
Definition get (v : Val) (key : string) : Val :=
  match v with
  | Obj props =>
      match List.find (fun kv => String.eqb (fst kv) key) props with
      | Some kv => snd kv
      | None => Undefined
      end
  | _ => Undefined
  end.

(** What [throw new Error(msg)] and a failing property access raise. *)
Inductive Error :=
| Err (message : string)
| TypeError (message : string).

Definition message (e : Error) : string :=
  match e with Err m | TypeError m => m end.

(** How a call ends. *)
Inductive Completion (A : Type) :=
| Normal (a : A)
| Throw (e : Error).
Arguments Normal {A} a.
Arguments Throw {A} e.

(** The double nearest to an integer, ties going to the even mantissa of
    53 bits; exact for the integers within the range of the finite
    doubles.  A Number that holds an integer is modelled by that integer. *)
Definition round_double (z : Z) : Z :=
  let a := Z.abs z in
  if a <? 2 ^ 53 then z
  else
    let e := Z.log2 a - 52 in
    let q := a / 2 ^ e in
    let r := a mod 2 ^ e in
    let up := (2 ^ (e - 1) <? r) || ((2 ^ (e - 1) =? r) && Z.odd q) in
    Z.sgn z * ((if up then q + 1 else q) * 2 ^ e).

(** [n + 1] and [n++] on a Number that holds an integer: the sum is
    rounded to a double, so that from 2^53 on the count may stay. *)
Definition plus_1 (n : Z) : Z := round_double (n + 1).

Arguments plus_1 : simpl never.

(** A number that may be missing, as a template literal renders it: in
    plain decimal, which is how integers below 10^21 are rendered. *)
Definition num_to_string (n : option Z) : string :=
  match n with
  | Some z => pretty z
  | None => "undefined"
  end.

(** Truthiness of a number that may be missing: [0], [null] and
    [undefined] are falsy. *)
Definition truthy_num (n : option Z) : bool :=
  match n with
  | Some z => negb (z =? 0)
  | None => false
  end.

(** [s.split(sep)] for a separator of one character. *)
Fixpoint split (sep : Ascii.ascii) (s : string) : list string :=
  match s with
  | EmptyString => [EmptyString]
  | String c rest =>
      if Ascii.eqb c sep then EmptyString :: split sep rest
      else match split sep rest with
           | piece :: pieces => String c piece :: pieces
           | [] => [String c EmptyString]
           end
  end.

(** An array element inside a template literal. *)
Definition item (pieces : list string) (i : nat) : string :=
  default "undefined" (pieces !! i).

(** [xs.join(sep)] *)
Fixpoint join (sep : string) (xs : list string) : string :=
  match xs with
  | [] => ""
  | [x] => x
  | x :: rest => x +:+ sep +:+ join sep rest
  end.

End Js.

Import Js.

(** ** Documents *)

(** Modelled from the spec: the Flow model is not among the sources.  A
    flow as the service sees it: its name, its inline flow data and the flow
    data document [flowDataId] resolves to (kept populated). *)
Record Flow := {
  flow_id : string;
  name : string;
  flowData : Val;
  flowDataId : Val
}.

(** Modelled from the spec: the FlowSchedule model is not among the sources.
    The persisted fields of a schedule document, each under the name the
    service reads or writes it by; a field that may be missing is an
    option, dates are instants. *)
Record Schedule := {
  _id : string;
  flowId : string;
  userId : string;
  scheduleType : string;
  cronExpression : string;
  intervalValue : option Z;
  intervalUnit : string;
  time : option string;
  daysOfWeek : option (list Z);
  dayOfMonth : option Z;
  timezone : option string;
  enabled : bool;
  inputData : Val;
  nextExecutionAt : option Z;
  lastExecutedAt : option Z;
  lastExecutionStatus : option string;
  executionCount : Z;
  maxExecutions : option Z;
  consecutiveFailures : option Z;
  isCurrentlyRunning : bool;
  currentExecutionId : option string;
  pausedReason : option string;
  expiresAt : option Z
}.

(** ** toCronExpression *)

Definition toCronExpression (schedule : Schedule) : Completion string :=
  if String.eqb (scheduleType schedule) "cron" then
    Normal (cronExpression schedule)
  else if String.eqb (scheduleType schedule) "interval" then
    if String.eqb (intervalUnit schedule) "minutes" then
      Normal ("*/" +:+ num_to_string (intervalValue schedule) +:+ " * * * *")
    else if String.eqb (intervalUnit schedule) "hours" then
      Normal ("0 */" +:+ num_to_string (intervalValue schedule) +:+ " * * *")
    else if String.eqb (intervalUnit schedule) "days" then
      Normal ("0 0 */" +:+ num_to_string (intervalValue schedule) +:+ " * *")
    else Throw (Err ("Unknown interval unit: " +:+ intervalUnit schedule))
  else if String.eqb (scheduleType schedule) "daily" then
    match time schedule with
    | None => Throw (TypeError "Cannot read properties of undefined (reading 'split')")
    | Some t =>
        let pieces := split ":"%char t in
        let hour := item pieces 0 in
        let minute := item pieces 1 in
        Normal (minute +:+ " " +:+ hour +:+ " * * *")
    end
  else if String.eqb (scheduleType schedule) "weekly" then
    match time schedule with
    | None => Throw (TypeError "Cannot read properties of undefined (reading 'split')")
    | Some t =>
        let pieces := split ":"%char t in
        let hour := item pieces 0 in
        let minute := item pieces 1 in
        match daysOfWeek schedule with
        | None => Throw (TypeError "Cannot read properties of undefined (reading 'join')")
        | Some ds =>
            let days := join "," (pretty <$> ds) in
            Normal (minute +:+ " " +:+ hour +:+ " * * " +:+ days)
        end
    end
  else if String.eqb (scheduleType schedule) "monthly" then
    match time schedule with
    | None => Throw (TypeError "Cannot read properties of undefined (reading 'split')")
    | Some t =>
        let pieces := split ":"%char t in
        let hour := item pieces 0 in
        let minute := item pieces 1 in
        Normal (minute +:+ " " +:+ hour +:+ " " +:+ num_to_string (dayOfMonth schedule) +:+ " * *")
    end
  else Throw (Err ("Unknown schedule type: " +:+ scheduleType schedule)).

(** ** Field assignment

    [schedule.f = v] on a document, one function per field the service
    writes. *)

Definition set_isCurrentlyRunning (v : bool) (s : Schedule) : Schedule :=
  {| _id := _id s; flowId := flowId s; userId := userId s;
     scheduleType := scheduleType s; cronExpression := cronExpression s;
     intervalValue := intervalValue s; intervalUnit := intervalUnit s;
     time := time s; daysOfWeek := daysOfWeek s; dayOfMonth := dayOfMonth s;
     timezone := timezone s; enabled := enabled s; inputData := inputData s;
     nextExecutionAt := nextExecutionAt s;
     lastExecutedAt := lastExecutedAt s;
     lastExecutionStatus := lastExecutionStatus s;
     executionCount := executionCount s; maxExecutions := maxExecutions s;
     consecutiveFailures := consecutiveFailures s; isCurrentlyRunning := v;
     currentExecutionId := currentExecutionId s;
     pausedReason := pausedReason s; expiresAt := expiresAt s |}.

Definition set_lastExecutedAt (v : option Z) (s : Schedule) : Schedule :=
  {| _id := _id s; flowId := flowId s; userId := userId s;
     scheduleType := scheduleType s; cronExpression := cronExpression s;
     intervalValue := intervalValue s; intervalUnit := intervalUnit s;
     time := time s; daysOfWeek := daysOfWeek s; dayOfMonth := dayOfMonth s;
     timezone := timezone s; enabled := enabled s; inputData := inputData s;
     nextExecutionAt := nextExecutionAt s; lastExecutedAt := v;
     lastExecutionStatus := lastExecutionStatus s;
     executionCount := executionCount s; maxExecutions := maxExecutions s;
     consecutiveFailures := consecutiveFailures s;
     isCurrentlyRunning := isCurrentlyRunning s;
     currentExecutionId := currentExecutionId s;
     pausedReason := pausedReason s; expiresAt := expiresAt s |}.

Definition set_executionCount (v : Z) (s : Schedule) : Schedule :=
  {| _id := _id s; flowId := flowId s; userId := userId s;
     scheduleType := scheduleType s; cronExpression := cronExpression s;
     intervalValue := intervalValue s; intervalUnit := intervalUnit s;
     time := time s; daysOfWeek := daysOfWeek s; dayOfMonth := dayOfMonth s;
     timezone := timezone s; enabled := enabled s; inputData := inputData s;
     nextExecutionAt := nextExecutionAt s;
     lastExecutedAt := lastExecutedAt s;
     lastExecutionStatus := lastExecutionStatus s; executionCount := v;
     maxExecutions := maxExecutions s;
     consecutiveFailures := consecutiveFailures s;
     isCurrentlyRunning := isCurrentlyRunning s;
     currentExecutionId := currentExecutionId s;
     pausedReason := pausedReason s; expiresAt := expiresAt s |}.

Definition set_lastExecutionStatus (v : option string) (s : Schedule) : Schedule :=
  {| _id := _id s; flowId := flowId s; userId := userId s;
     scheduleType := scheduleType s; cronExpression := cronExpression s;
     intervalValue := intervalValue s; intervalUnit := intervalUnit s;
     time := time s; daysOfWeek := daysOfWeek s; dayOfMonth := dayOfMonth s;
     timezone := timezone s; enabled := enabled s; inputData := inputData s;
     nextExecutionAt := nextExecutionAt s;
     lastExecutedAt := lastExecutedAt s; lastExecutionStatus := v;
     executionCount := executionCount s; maxExecutions := maxExecutions s;
     consecutiveFailures := consecutiveFailures s;
     isCurrentlyRunning := isCurrentlyRunning s;
     currentExecutionId := currentExecutionId s;
     pausedReason := pausedReason s; expiresAt := expiresAt s |}.

Definition set_consecutiveFailures (v : option Z) (s : Schedule) : Schedule :=
  {| _id := _id s; flowId := flowId s; userId := userId s;
     scheduleType := scheduleType s; cronExpression := cronExpression s;
     intervalValue := intervalValue s; intervalUnit := intervalUnit s;
     time := time s; daysOfWeek := daysOfWeek s; dayOfMonth := dayOfMonth s;
     timezone := timezone s; enabled := enabled s; inputData := inputData s;
     nextExecutionAt := nextExecutionAt s;
     lastExecutedAt := lastExecutedAt s;
     lastExecutionStatus := lastExecutionStatus s;
     executionCount := executionCount s; maxExecutions := maxExecutions s;
     consecutiveFailures := v; isCurrentlyRunning := isCurrentlyRunning s;
     currentExecutionId := currentExecutionId s;
     pausedReason := pausedReason s; expiresAt := expiresAt s |}.

Definition set_nextExecutionAt (v : option Z) (s : Schedule) : Schedule :=
  {| _id := _id s; flowId := flowId s; userId := userId s;
     scheduleType := scheduleType s; cronExpression := cronExpression s;
     intervalValue := intervalValue s; intervalUnit := intervalUnit s;
     time := time s; daysOfWeek := daysOfWeek s; dayOfMonth := dayOfMonth s;
     timezone := timezone s; enabled := enabled s; inputData := inputData s;
     nextExecutionAt := v; lastExecutedAt := lastExecutedAt s;
     lastExecutionStatus := lastExecutionStatus s;
     executionCount := executionCount s; maxExecutions := maxExecutions s;
     consecutiveFailures := consecutiveFailures s;
     isCurrentlyRunning := isCurrentlyRunning s;
     currentExecutionId := currentExecutionId s;
     pausedReason := pausedReason s; expiresAt := expiresAt s |}.

Definition set_currentExecutionId (v : option string) (s : Schedule) : Schedule :=
  {| _id := _id s; flowId := flowId s; userId := userId s;
     scheduleType := scheduleType s; cronExpression := cronExpression s;
     intervalValue := intervalValue s; intervalUnit := intervalUnit s;
     time := time s; daysOfWeek := daysOfWeek s; dayOfMonth := dayOfMonth s;
     timezone := timezone s; enabled := enabled s; inputData := inputData s;
     nextExecutionAt := nextExecutionAt s;
     lastExecutedAt := lastExecutedAt s;
     lastExecutionStatus := lastExecutionStatus s;
     executionCount := executionCount s; maxExecutions := maxExecutions s;
     consecutiveFailures := consecutiveFailures s;
     isCurrentlyRunning := isCurrentlyRunning s; currentExecutionId := v;
     pausedReason := pausedReason s; expiresAt := expiresAt s |}.

Definition set_enabled (v : bool) (s : Schedule) : Schedule :=
  {| _id := _id s; flowId := flowId s; userId := userId s;
     scheduleType := scheduleType s; cronExpression := cronExpression s;
     intervalValue := intervalValue s; intervalUnit := intervalUnit s;
     time := time s; daysOfWeek := daysOfWeek s; dayOfMonth := dayOfMonth s;
     timezone := timezone s; enabled := v; inputData := inputData s;
     nextExecutionAt := nextExecutionAt s;
     lastExecutedAt := lastExecutedAt s;
     lastExecutionStatus := lastExecutionStatus s;
     executionCount := executionCount s; maxExecutions := maxExecutions s;
     consecutiveFailures := consecutiveFailures s;
     isCurrentlyRunning := isCurrentlyRunning s;
     currentExecutionId := currentExecutionId s;
     pausedReason := pausedReason s; expiresAt := expiresAt s |}.

Definition set_pausedReason (v : option string) (s : Schedule) : Schedule :=
  {| _id := _id s; flowId := flowId s; userId := userId s;
     scheduleType := scheduleType s; cronExpression := cronExpression s;
     intervalValue := intervalValue s; intervalUnit := intervalUnit s;
     time := time s; daysOfWeek := daysOfWeek s; dayOfMonth := dayOfMonth s;
     timezone := timezone s; enabled := enabled s; inputData := inputData s;
     nextExecutionAt := nextExecutionAt s;
     lastExecutedAt := lastExecutedAt s;
     lastExecutionStatus := lastExecutionStatus s;
     executionCount := executionCount s; maxExecutions := maxExecutions s;
     consecutiveFailures := consecutiveFailures s;
     isCurrentlyRunning := isCurrentlyRunning s;
     currentExecutionId := currentExecutionId s; pausedReason := v;
     expiresAt := expiresAt s |}.

(** A document as [findById(..).populate(..)] hands it over: the persisted
    fields and, in place of the flow reference, the flow it resolves to
    ([None] is [null]: the flow no longer exists).  [save] writes the
    persisted fields only. *)
Record ScheduleDoc := {
  persisted :> Schedule;
  populated_flowId : option Flow
}.

Definition assign (f : Schedule → Schedule) (d : ScheduleDoc) : ScheduleDoc :=
  {| persisted := f d; populated_flowId := populated_flowId d |}.

Definition set_populated (flow : option Flow) (d : ScheduleDoc) : ScheduleDoc :=
  {| persisted := d; populated_flowId := flow |}.

Definition set_flowData (v : Val) (f : Flow) : Flow :=
  {| flow_id := flow_id f; name := name f; flowData := v;
     flowDataId := flowDataId f |}.

(** ** The system the service runs in *)

(** Modelled from the spec: the Execution record of the data model, which
    the flow executor creates; the service never builds one itself. *)
Record Execution := {
  exec_flowId : string;
  triggeredBy : string;
  exec_scheduleId : option string;
  exec_status : string
}.

(** Modelled from the spec: the persistent store, which the sources reach
    only through the models.  It holds schedules and flows by id and the
    Execution records; with it goes the clock [new Date()] reads.  This is
    the part of the system the flow executor may change. *)
Record World := {
  schedules : gmap string Schedule;
  flows : gmap string Flow;
  executions : list Execution;
  clock : Z
}.

(** Modelled from the spec: a trigger of the trigger facility (node-cron):
    what [cron.schedule] was given, the schedule id its callback fires, and
    whether it still runs, [stop] being the one operation of its handle. *)
Record CronTask := {
  task_expression : string;
  task_timezone : string;
  task_scheduleId : string;
  task_running : bool
}.

Definition stopped (t : CronTask) : CronTask :=
  {| task_expression := task_expression t; task_timezone := task_timezone t;
     task_scheduleId := task_scheduleId t; task_running := false |}.

(** What the service does to its collaborators, in order. *)
Inductive Event :=
| QueryFind
| QueryFindById (id : string)
| QuerySave (id : string)
| CallExecuteFlow (scheduleId : string)
| CallCronSchedule (expression scheduleId : string)
| CallStop (handle : nat).

(** [jobs] and [initialized] are the two fields of the service object.
    [faults] scripts the store: each store operation takes the head, and
    raises it when it is an error.  [timers] are the triggers ever created,
    a handle being a position in it. *)
Record Sys := {
  jobs : gmap string nat;
  initialized : bool;
  world : World;
  faults : list (option Error);
  timers : list CronTask;
  trace : list Event
}.

Definition set_jobs (v : gmap string nat) (σ : Sys) : Sys :=
  {| jobs := v; initialized := initialized σ; world := world σ;
     faults := faults σ; timers := timers σ; trace := trace σ |}.

Definition set_initialized (v : bool) (σ : Sys) : Sys :=
  {| jobs := jobs σ; initialized := v; world := world σ;
     faults := faults σ; timers := timers σ; trace := trace σ |}.

Definition set_world (v : World) (σ : Sys) : Sys :=
  {| jobs := jobs σ; initialized := initialized σ; world := v;
     faults := faults σ; timers := timers σ; trace := trace σ |}.

Definition set_faults (v : list (option Error)) (σ : Sys) : Sys :=
  {| jobs := jobs σ; initialized := initialized σ; world := world σ;
     faults := v; timers := timers σ; trace := trace σ |}.

Definition set_timers (v : list CronTask) (σ : Sys) : Sys :=
  {| jobs := jobs σ; initialized := initialized σ; world := world σ;
     faults := faults σ; timers := v; trace := trace σ |}.

Definition set_trace (v : list Event) (σ : Sys) : Sys :=
  {| jobs := jobs σ; initialized := initialized σ; world := world σ;
     faults := faults σ; timers := timers σ; trace := v |}.

Definition set_schedules (v : gmap string Schedule) (w : World) : World :=
  {| schedules := v; flows := flows w; executions := executions w;
     clock := clock w |}.

(** ** Computations: state passing with exceptions *)

Definition M (S A : Type) : Type := S → Completion A * S.

Definition ret {S A} (a : A) : M S A := fun σ => (Normal a, σ).

Definition throw {S A} (e : Error) : M S A := fun σ => (Throw e, σ).

Definition bind {S A B} (c : M S A) (k : A → M S B) : M S B :=
  fun σ =>
    match c σ with
    | (Normal a, σ') => k a σ'
    | (Throw e, σ') => (Throw e, σ')
    end.

(** [try { body } catch (error) { handler }] *)
Definition try_catch {S A} (body : M S A) (handler : Error → M S A) : M S A :=
  fun σ =>
    match body σ with
    | (Normal a, σ') => (Normal a, σ')
    | (Throw e, σ') => handler e σ'
    end.

(** A step written out as a function of the state. *)
Definition step {S A} (f : S → Completion A * S) : M S A := f.

Definition gets {S A} (f : S → A) : M S A := fun σ => (Normal (f σ), σ).

Definition modify {S} (f : S → S) : M S unit := fun σ => (Normal tt, f σ).

Notation "'let*' x := c 'in' k" := (bind c (fun x => k))
  (at level 10, x name, c at level 100, k at level 200, only parsing).
Notation "c >> k" := (bind c (fun _ => k))
  (at level 100, k at level 200, right associativity, only parsing).

(** A method body with one local variable of type [L], which a [catch]
    block still sees after the [try] block has thrown. *)
Definition lift {L A} (c : M Sys A) : M (L * Sys) A :=
  fun '(l, σ) => let '(r, σ') := c σ in (r, (l, σ')).

Definition run_with {L A} (init : L) (c : M (L * Sys) A) : M Sys A :=
  fun σ => let '(r, (_, σ')) := c (init, σ) in (r, σ').

(** ** The store, the clock and the trigger facility *)

Definition emit (e : Event) : M Sys unit :=
  modify (fun σ => set_trace (trace σ ++ [e]) σ).

(** The store may fail any operation. *)
Definition store_access : M Sys unit :=
  fun σ =>
    match faults σ with
    | [] => (Normal tt, σ)
    | None :: rest => (Normal tt, set_faults rest σ)
    | Some e :: rest => (Throw e, set_faults rest σ)
    end.

Definition populate (w : World) (s : Schedule) : ScheduleDoc :=
  {| persisted := s; populated_flowId := flows w !! flowId s |}.

(** [FlowSchedule.findById(id).populate(..)] *)
Definition findById (id : string) : M Sys (option ScheduleDoc) :=
  emit (QueryFindById id) >>
  store_access >>
  gets (fun σ => populate (world σ) <$> schedules (world σ) !! id).

(** [new Date()] *)
Definition new_Date : M Sys Z := gets (fun σ => clock (world σ)).

(** The filter of the query of [initialize]: enabled, and not expired. *)
Definition active (now : Z) (s : Schedule) : bool :=
  enabled s &&
  match expiresAt s with
  | Some t => now <? t
  | None => true
  end.

(** [FlowSchedule.find({enabled: true, $or: [..]}).populate('flowId')] *)
Definition find_active : M Sys (list ScheduleDoc) :=
  let* now := new_Date in
  emit QueryFind >>
  store_access >>
  gets (fun σ =>
    populate (world σ) <$>
      filter (fun s => active now s = true)
             (snd <$> map_to_list (schedules (world σ)))).

(** [schedule.save()] *)
Definition save (schedule : ScheduleDoc) : M Sys unit :=
  emit (QuerySave (_id schedule)) >>
  store_access >>
  modify (fun σ =>
    set_world (set_schedules
      (<[_id schedule := persisted schedule]> (schedules (world σ)))
      (world σ)) σ).

(** [task.stop()] *)
Definition stop (handle : nat) : M Sys unit :=
  emit (CallStop handle) >>
  modify (fun σ => set_timers (alter stopped handle (timers σ)) σ).

(** ** The service *)

Section SchedulerService.

(** [calculateNextExecution(schedule)], given the current instant. *)
Variable calculateNextExecution : Schedule → Z → Completion Z.

(** [resolveDynamicInputs(inputData, flow, {lastExecution, timezone})],
    given the current instant. *)
Variable resolveDynamicInputs :
  Val → Flow → option Z → string → Z → Completion Val.

(** [flowExecutor.executeFlow(flow, inputData, userId, triggeredBy,
    scheduleId)]. *)
Variable executeFlow :
  Flow → Val → string → string → string → World → Completion Val * World.

(** Whether [cron.schedule] accepts an expression; it raises otherwise. *)
Variable cron_validate : string → bool.

Definition call_calculateNextExecution (schedule : Schedule) : M Sys Z :=
  step (fun σ => (calculateNextExecution schedule (clock (world σ)), σ)).

Definition call_resolveDynamicInputs (inputData : Val) (flow : Flow)
    (lastExecution : option Z) (tz : string) : M Sys Val :=
  step (fun σ =>
    (resolveDynamicInputs inputData flow lastExecution tz (clock (world σ)), σ)).

Definition call_executeFlow (flow : Flow) (inputData : Val)
    (user triggered scheduleId : string) : M Sys Val :=
  emit (CallExecuteFlow scheduleId) >>
  step (fun σ =>
    let '(r, w) := executeFlow flow inputData user triggered scheduleId (world σ) in
    (r, set_world w σ)).

(** [cron.schedule(expression, callback, {timezone, scheduled: true})],
    the callback being the one that fires [scheduleId]. *)
Definition cron_schedule (expression scheduleId tz : string) : M Sys nat :=
  emit (CallCronSchedule expression scheduleId) >>
  if cron_validate expression then
    let* handle := gets (fun σ => length (timers σ)) in
    modify (fun σ => set_timers (timers σ ++
      [{| task_expression := expression; task_timezone := tz;
          task_scheduleId := scheduleId; task_running := true |}]) σ) >>
    ret handle
  else throw (Err (expression +:+ " is a invalid expression")).

(** [schedule.timezone || 'UTC'] *)
Definition timezone_or_UTC (schedule : Schedule) : string :=
  match timezone schedule with
  | Some tz => if String.eqb tz "" then "UTC" else tz
  | None => "UTC"
  end.

Definition unregisterSchedule (scheduleId : string) : M Sys unit :=
  let* task := gets (fun σ => jobs σ !! scheduleId) in
  match task with
  | Some handle =>
      stop handle >>
      modify (fun σ => set_jobs (delete scheduleId (jobs σ)) σ)
  | None => ret tt
  end.

(** The guarded block of [registerSchedule]. *)
Definition register_try (schedule : ScheduleDoc) : M Sys unit :=
  let scheduleId := _id schedule in
  let* cronExpression := step (fun σ => (toCronExpression schedule, σ)) in
  match nextExecutionAt schedule with
  | None =>
      let* next := call_calculateNextExecution schedule in
      save (assign (set_nextExecutionAt (Some next)) schedule)
  | Some _ => ret tt
  end >>
  let* task := cron_schedule cronExpression scheduleId (timezone_or_UTC schedule) in
  modify (fun σ => set_jobs (<[scheduleId := task]> (jobs σ)) σ).

Definition registerSchedule (schedule : ScheduleDoc) : M Sys unit :=
  let scheduleId := _id schedule in
  let* has := gets (fun σ => bool_decide (is_Some (jobs σ !! scheduleId))) in
  (if has : bool then unregisterSchedule scheduleId else ret tt) >>
  try_catch (register_try schedule) (fun error => throw error).

(** The loop of [initialize]: [for (const schedule of schedules)]. *)
Fixpoint register_each (found : list ScheduleDoc) : M Sys unit :=
  match found with
  | [] => ret tt
  | schedule :: rest =>
      match populated_flowId schedule with
      | Some _ => registerSchedule schedule
      | None => ret tt
      end >>
      register_each rest
  end.

Definition initialize : M Sys unit :=
  let* done := gets initialized in
  if done : bool then ret tt
  else
    try_catch
      (let* found := find_active in
       register_each found >>
       modify (set_initialized true))
      (fun error => throw error).

(** The local variable [schedule] of [executeScheduledFlow]: declared before
    the [try], assigned inside it, read by the [catch]. *)
Definition Local : Type := option ScheduleDoc * Sys.

Definition set_var (v : option ScheduleDoc) : M Local unit :=
  modify (fun '(_, σ) => (v, σ)).

Definition var : M Local (option ScheduleDoc) := gets fst.

(** A read of [schedule] where the code has already tested it. *)
Definition the_schedule : M Local ScheduleDoc :=
  step (fun '(l, σ) =>
    match l with
    | Some d => (Normal d, (l, σ))
    | None => (Throw (TypeError "Cannot read properties of undefined"), (l, σ))
    end).

(** [schedule.f = ..] *)
Definition field (f : Schedule → Schedule) : M Local unit :=
  modify (fun '(l, σ) => (assign f <$> l, σ)).

(** The writes to the populated flow go through [schedule.flowId]. *)
Definition flow_write (flow : Flow) : M Local unit :=
  modify (fun '(l, σ) => (set_populated (Some flow) <$> l, σ)).

(** [schedule.maxExecutions && schedule.executionCount >= schedule.maxExecutions] *)
Definition max_reached (schedule : Schedule) : bool :=
  truthy_num (maxExecutions schedule) &&
  match maxExecutions schedule with
  | Some m => m <=? executionCount schedule
  | None => false
  end.

(** [schedule.consecutiveFailures || 0] *)
Definition failures_or_0 (schedule : Schedule) : Z :=
  default 0 (consecutiveFailures schedule).

Definition fire_try (scheduleId : string) : M Local unit :=
  let* found := lift (findById scheduleId) in
  set_var found >>
  match found with
  | None => ret tt
  | Some schedule =>
      if negb (enabled schedule) then ret tt
      else if isCurrentlyRunning schedule then ret tt
      else
        field (set_isCurrentlyRunning true) >>
        let* schedule := the_schedule in
        lift (save schedule) >>
        match populated_flowId schedule with
        | None => throw (Err "Flow not found")
        | Some flow =>
            let* flow :=
              (if negb (truthy (flowData flow)) && truthy (flowDataId flow)
               then
                 let flow := set_flowData
                   (or (get (flowDataId flow) "data") (flowDataId flow)) flow in
                 flow_write flow >> ret flow
               else ret flow) in
            let* schedule := the_schedule in
            let* resolvedInputData := lift (call_resolveDynamicInputs
              (or (inputData schedule) (Obj [])) flow
              (lastExecutedAt schedule) (timezone_or_UTC schedule)) in
            let* result := lift (call_executeFlow flow resolvedInputData
              (userId schedule) "schedule" scheduleId) in
            let* now := lift new_Date in
            field (set_lastExecutedAt (Some now)) >>
            field (fun s => set_executionCount (plus_1 (executionCount s)) s) >>
            field (set_lastExecutionStatus (Some "success")) >>
            field (set_consecutiveFailures (Some 0)) >>
            let* schedule := the_schedule in
            let* next := lift (call_calculateNextExecution schedule) in
            field (set_nextExecutionAt (Some next)) >>
            field (set_isCurrentlyRunning false) >>
            field (set_currentExecutionId None) >>
            let* schedule := the_schedule in
            (if max_reached schedule then
               field (set_enabled false) >>
               field (set_pausedReason (Some "Max executions reached")) >>
               lift (unregisterSchedule scheduleId)
             else ret tt) >>
            let* schedule := the_schedule in
            lift (save schedule)
        end
  end.

Definition fire_catch (scheduleId : string) (error : Error) : M Local unit :=
  let* schedule := var in
  match schedule with
  | None => ret tt
  | Some _ =>
      let* now := lift new_Date in
      field (set_lastExecutedAt (Some now)) >>
      field (set_lastExecutionStatus (Some "failed")) >>
      field (fun s => set_consecutiveFailures (Some (plus_1 (failures_or_0 s))) s) >>
      field (set_isCurrentlyRunning false) >>
      field (set_currentExecutionId None) >>
      let* schedule := the_schedule in
      (if 3 <=? failures_or_0 schedule then
         field (set_enabled false) >>
         field (set_pausedReason (Some
           ("Paused after " +:+ num_to_string (consecutiveFailures schedule)
            +:+ " consecutive failures: " +:+ message error))) >>
         lift (unregisterSchedule scheduleId)
       else
         let* next := lift (call_calculateNextExecution schedule) in
         field (set_nextExecutionAt (Some next))) >>
      let* schedule := the_schedule in
      lift (save schedule)
  end.

Definition executeScheduledFlow (scheduleId : string) : M Sys unit :=
  run_with None (try_catch (fire_try scheduleId) (fire_catch scheduleId)).

Definition reloadSchedule (scheduleId : string) : M Sys unit :=
  let* schedule := findById scheduleId in
  match schedule with
  | None => throw (Err "Schedule not found")
  | Some schedule =>
      if enabled schedule then registerSchedule schedule
      else unregisterSchedule scheduleId
  end.

(** [getStats()]: the number of stored triggers and their schedule ids.
    The ids come in the order of the map's keys, where the source lists
    them in the order of insertion. *)
Definition getStats (σ : Sys) : nat * list string :=
  (size (jobs σ), fst <$> map_to_list (jobs σ)).

End SchedulerService.

Arguments store_access : simpl never.
Arguments unregisterSchedule : simpl never.

(** ** Live triggers *)

(** Trigger [handle] still runs and fires schedule [id]. *)
Definition live_trigger (σ : Sys) (id : string) (handle : nat) : Prop :=
  ∃ t, timers σ !! handle = Some t ∧ task_running t = true ∧
       task_scheduleId t = id.

Definition is_live (id : string) (t : CronTask) : bool :=
  task_running t && String.eqb (task_scheduleId t) id.

(** How many running triggers fire schedule [id]. *)
Definition live_count (id : string) (σ : Sys) : nat :=
  length (filter (fun t => is_live id t = true) (timers σ)).

(** Every running trigger is the one the service stores for its schedule:
    the state the service keeps from its construction on. *)
Definition tracked (σ : Sys) : Prop :=
  ∀ handle t, timers σ !! handle = Some t → task_running t = true →
    jobs σ !! task_scheduleId t = Some handle.

(** The triggers once the one stored for schedule [id] is stopped. *)
Definition timers_without (id : string) (σ : Sys) : list CronTask :=
  match jobs σ !! id with
  | Some handle => alter stopped handle (timers σ)
  | None => timers σ
  end.

Arguments timers_without : simpl never.

(** Every stored trigger still runs and fires the schedule it is stored
    for. *)
Definition stored_live (σ : Sys) : Prop :=
  ∀ id handle, jobs σ !! id = Some handle → live_trigger σ id handle.

(** The trigger map and the running triggers describe each other. *)
Definition consistent (σ : Sys) : Prop := tracked σ ∧ stored_live σ.

(** Whether the trigger behind a handle still runs. *)
Definition runs_at (σ : Sys) (handle : nat) : bool :=
  match timers σ !! handle with
  | Some t => task_running t
  | None => false
  end.

(** The handles of the triggers that still run. *)
Definition running_handles (σ : Sys) : list nat :=
  filter (fun h => runs_at σ h = true) (seq 0 (length (timers σ))).

(** The fields that decide when a schedule fires. *)
Definition cadence (s : Schedule) :=
  (scheduleType s, cronExpression s, intervalValue s, intervalUnit s,
   time s, daysOfWeek s, dayOfMonth s, timezone s).

(** The store answers its next operation. *)
Definition answers (σ : Sys) : bool :=
  match faults σ with
  | Some _ :: _ => false
  | _ => true
  end.

(** The schedule types and interval units [toCronExpression] knows. *)
Definition known_type (t : string) : bool :=
  bool_decide (t ∈ ["cron"; "interval"; "daily"; "weekly"; "monthly"]).

Definition known_unit (u : string) : bool :=
  bool_decide (u ∈ ["minutes"; "hours"; "days"]).

(** ** Sample data *)

Module Sample.

Definition calc (s : Schedule) (now : Z) : Completion Z := Normal (now + 60).

Definition resolve (v : Val) (f : Flow) (last : option Z) (tz : string)
    (now : Z) : Completion Val := Normal v.

Definition exec_ok (f : Flow) (v : Val) (user by_ id : string) (w : World)
    : Completion Val * World := (Normal (Str "done"), w).

Definition exec_fail (f : Flow) (v : Val) (user by_ id : string) (w : World)
    : Completion Val * World := (Throw (Err "node failed"), w).

Definition accept (expression : string) : bool := true.

Definition reject (expression : string) : bool := false.

(** A monthly schedule, on day [day] at [t]. *)
Definition monthly (id t : string) (day : Z) : Schedule :=
  {| _id := id; flowId := "flow-1"; userId := "user-1";
     scheduleType := "monthly"; cronExpression := ""; intervalValue := None;
     intervalUnit := ""; time := Some t; daysOfWeek := None;
     dayOfMonth := Some day; timezone := None; enabled := true;
     inputData := Undefined; nextExecutionAt := None; lastExecutedAt := None;
     lastExecutionStatus := None; executionCount := 0; maxExecutions := None;
     consecutiveFailures := Some 0; isCurrentlyRunning := false;
     currentExecutionId := None; pausedReason := None; expiresAt := None |}.

(** The same schedule with another type and interval unit. *)
Definition typed (type unit : string) (s : Schedule) : Schedule :=
  {| _id := _id s; flowId := flowId s; userId := userId s;
     scheduleType := type; cronExpression := cronExpression s;
     intervalValue := Some 15; intervalUnit := unit; time := time s;
     daysOfWeek := daysOfWeek s; dayOfMonth := dayOfMonth s;
     timezone := timezone s; enabled := enabled s; inputData := inputData s;
     nextExecutionAt := nextExecutionAt s; lastExecutedAt := lastExecutedAt s;
     lastExecutionStatus := lastExecutionStatus s;
     executionCount := executionCount s; maxExecutions := maxExecutions s;
     consecutiveFailures := consecutiveFailures s;
     isCurrentlyRunning := isCurrentlyRunning s;
     currentExecutionId := currentExecutionId s;
     pausedReason := pausedReason s; expiresAt := expiresAt s |}.

(** The same schedule with an execution cap. *)
Definition capped (cap : Z) (s : Schedule) : Schedule :=
  {| _id := _id s; flowId := flowId s; userId := userId s;
     scheduleType := scheduleType s; cronExpression := cronExpression s;
     intervalValue := intervalValue s; intervalUnit := intervalUnit s;
     time := time s; daysOfWeek := daysOfWeek s; dayOfMonth := dayOfMonth s;
     timezone := timezone s; enabled := enabled s; inputData := inputData s;
     nextExecutionAt := nextExecutionAt s; lastExecutedAt := lastExecutedAt s;
     lastExecutionStatus := lastExecutionStatus s;
     executionCount := executionCount s; maxExecutions := Some cap;
     consecutiveFailures := consecutiveFailures s;
     isCurrentlyRunning := isCurrentlyRunning s;
     currentExecutionId := currentExecutionId s;
     pausedReason := pausedReason s; expiresAt := expiresAt s |}.

(** A weekly schedule, at [t] on the weekdays [days]. *)
Definition weekly (id t : string) (days : list Z) : Schedule :=
  {| _id := id; flowId := "flow-1"; userId := "user-1";
     scheduleType := "weekly"; cronExpression := ""; intervalValue := None;
     intervalUnit := ""; time := Some t; daysOfWeek := Some days;
     dayOfMonth := None; timezone := None; enabled := true;
     inputData := Undefined; nextExecutionAt := None; lastExecutedAt := None;
     lastExecutionStatus := None; executionCount := 0; maxExecutions := None;
     consecutiveFailures := Some 0; isCurrentlyRunning := false;
     currentExecutionId := None; pausedReason := None; expiresAt := None |}.

Definition first_of_month : Schedule := monthly "s1" "00:05" 1.

Definition report : Flow :=
  {| flow_id := "flow-1"; name := "report"; flowData := Undefined;
     flowDataId := Obj [("data", Str "graph")] |}.

(** A store holding one schedule and, when [with_flow], its flow. *)
Definition store_of (s : Schedule) (with_flow : bool) : World :=
  {| schedules := {[ _id s := s ]};
     flows := if with_flow then {[ "flow-1" := report ]} else ∅;
     executions := []; clock := 1000 |}.

(** A service that has registered nothing yet. *)
Definition fresh (w : World) (script : list (option Error)) : Sys :=
  {| jobs := ∅; initialized := false; world := w; faults := script;
     timers := []; trace := [] |}.

(** A service holding one running trigger for schedule [id]. *)
Definition registered (id : string) (w : World)
    (script : list (option Error)) : Sys :=
  {| jobs := {[ id := 0%nat ]}; initialized := true; world := w;
     faults := script;
     timers := [{| task_expression := "05 00 1 * *"; task_timezone := "UTC";
                   task_scheduleId := id; task_running := true |}];
     trace := [] |}.

End Sample.

(** * Properties *)

(** ** The cron translation *)

Lemma split_no_sep sep s :
  Forall (fun c => c ≠ sep) (String.list_ascii_of_string s) →
  split sep s = [s].
Proof.
  induction s as [|c s IH]; simpl; intros H; [done|].
  apply Forall_cons in H as [Hc Hs].
  destruct (Ascii.eqb_spec c sep) as [->|_]; [done|]. by rewrite IH.
Qed.

Lemma split_two sep h m :
  Forall (fun c => c ≠ sep) (String.list_ascii_of_string h) →
  Forall (fun c => c ≠ sep) (String.list_ascii_of_string m) →
  split sep (h +:+ String sep m) = [h; m].
Proof.
  intros Hh Hm. induction h as [|c h IH]; simpl.
  - rewrite Ascii.eqb_refl. by rewrite split_no_sep.
  - simpl in Hh. apply Forall_cons in Hh as [Hc Hh].
    destruct (Ascii.eqb_spec c sep) as [->|_]; [done|]. by rewrite IH.
Qed.

(** A monthly schedule is translated by pasting the two pieces of its time
    as they are written: minute, hour, day of month. *)
Lemma toCronExpression_monthly s h m :
  scheduleType s = "monthly" →
  Forall (fun c => c ≠ ":"%char) (String.list_ascii_of_string h) →
  Forall (fun c => c ≠ ":"%char) (String.list_ascii_of_string m) →
  time s = Some (h +:+ ":" +:+ m) →
  toCronExpression s =
    Normal (m +:+ " " +:+ h +:+ " " +:+ num_to_string (dayOfMonth s) +:+ " * *").
Proof.
  intros Ht Hh Hm Htime. unfold toCronExpression. rewrite Ht, Htime. simpl.
  change (":" +:+ m) with (String ":" m). by rewrite split_two.
Qed.

(** C7, as stated, fails: for the monthly schedule at "00:05" on day 1 the
    translation does not return "5 0 1 * *"; the leading zeros of the time
    stay in the expression. *)
Lemma monthly_0005_keeps_zeros :
  scheduleType Sample.first_of_month = "monthly" ∧
  time Sample.first_of_month = Some "00:05" ∧
  dayOfMonth Sample.first_of_month = Some 1 ∧
  toCronExpression Sample.first_of_month ≠ Normal "5 0 1 * *".
Proof. repeat split; try reflexivity. vm_compute. discriminate. Qed.

(** C7, amended: for a monthly schedule with time "00:05" and day of month 1
    the translation returns "05 00 1 * *", the minute and the hour being
    pasted as the time writes them. *)
Theorem toCronExpression_monthly_0005 (s : Schedule) :
  scheduleType s = "monthly" → time s = Some "00:05" → dayOfMonth s = Some 1 →
  toCronExpression s = Normal "05 00 1 * *".
Proof.
  intros Ht Htime Hday.
  rewrite (toCronExpression_monthly s "00" "05"); try done.
  - by rewrite Hday.
  - by repeat constructor.
  - by repeat constructor.
Qed.

Lemma toCronExpression_monthly_0005_witness :
  toCronExpression Sample.first_of_month = Normal "05 00 1 * *".
Proof.
  apply (toCronExpression_monthly_0005 Sample.first_of_month); reflexivity.
Defined.

Lemma unknown_type_eqb (t : string) :
  known_type t = false →
  String.eqb t "cron" = false ∧ String.eqb t "interval" = false ∧
  String.eqb t "daily" = false ∧ String.eqb t "weekly" = false ∧
  String.eqb t "monthly" = false.
Proof.
  unfold known_type. intros H%bool_decide_eq_false.
  repeat split; apply String.eqb_neq; intros ->; apply H; set_solver.
Qed.

Lemma unknown_unit_eqb (u : string) :
  known_unit u = false →
  String.eqb u "minutes" = false ∧ String.eqb u "hours" = false ∧
  String.eqb u "days" = false.
Proof.
  unfold known_unit. intros H%bool_decide_eq_false.
  repeat split; apply String.eqb_neq; intros ->; apply H; set_solver.
Qed.

Lemma toCronExpression_unknown_type (s : Schedule) :
  known_type (scheduleType s) = false →
  toCronExpression s = Throw (Err ("Unknown schedule type: " +:+ scheduleType s)).
Proof.
  intros (H1 & H2 & H3 & H4 & H5)%unknown_type_eqb.
  unfold toCronExpression. by rewrite H1, H2, H3, H4, H5.
Qed.

Lemma toCronExpression_unknown_unit (s : Schedule) :
  scheduleType s = "interval" → known_unit (intervalUnit s) = false →
  toCronExpression s = Throw (Err ("Unknown interval unit: " +:+ intervalUnit s)).
Proof.
  intros Ht (H1 & H2 & H3)%unknown_unit_eqb.
  unfold toCronExpression. rewrite Ht. simpl. by rewrite H1, H2, H3.
Qed.

(** ** Counting *)

(** On the integers that a double holds exactly next to their successor,
    the increment is the mathematical one. *)
Lemma plus_1_exact n : Z.abs n < 2 ^ 53 → plus_1 n = n + 1.
Proof.
  intros Hn. unfold plus_1, round_double.
  change (2 ^ 53) with 9007199254740992 in *.
  destruct (Z.ltb_spec (Z.abs (n + 1)) 9007199254740992) as [|Hge]; [done|].
  assert (n + 1 = 9007199254740992) as -> by lia. reflexivity.
Qed.

(** From 2^53 on it is not: there the count stays. *)
Lemma plus_1_stays : plus_1 (2 ^ 53) = 2 ^ 53.
Proof. reflexivity. Qed.

(** ** Sequencing *)

Lemma bind_normal {S A B} (c : M S A) (k : A → M S B) σ b σ' :
  bind c k σ = (Normal b, σ') →
  ∃ a σ1, c σ = (Normal a, σ1) ∧ k a σ1 = (Normal b, σ').
Proof.
  unfold bind. destruct (c σ) as [[a|e] σ1]; [|done]. intros H. by exists a, σ1.
Qed.

Lemma bind_run {S A B} (c : M S A) (k : A → M S B) σ a σ1 :
  c σ = (Normal a, σ1) → bind c k σ = k a σ1.
Proof. unfold bind. by intros ->. Qed.

Lemma bind_throw {S A B} (c : M S A) (k : A → M S B) σ e σ1 :
  c σ = (Throw e, σ1) → bind c k σ = (Throw e, σ1).
Proof. unfold bind. by intros ->. Qed.

Lemma try_catch_rethrow {S A} (body : M S A) σ :
  try_catch body (fun error => throw error) σ = body σ.
Proof. unfold try_catch, throw. by destruct (body σ) as [[a|e] σ1]. Qed.

Lemma try_catch_rethrow_bind {S A B} (c : M S A) (body : M S B) σ :
  bind c (fun _ => try_catch body (fun error => throw error)) σ =
  bind c (fun _ => body) σ.
Proof.
  unfold bind. destruct (c σ) as [[a|e] σ1]; [|done]. apply try_catch_rethrow.
Qed.

(** ** Live triggers *)

(** A service just constructed has no trigger at all. *)
Lemma tracked_new σ : timers σ = [] → tracked σ.
Proof. intros Hnil h t Hl. by rewrite Hnil in Hl. Qed.

Lemma tracked_same σ σ' :
  jobs σ' = jobs σ → timers σ' = timers σ → tracked σ → tracked σ'.
Proof. unfold tracked. intros -> ->. done. Qed.

(** Once the trigger stored for [id] is stopped and its entry deleted, no
    running trigger fires [id]. *)
Lemma tracked_unregistered σ σ' id :
  tracked σ → jobs σ' = delete id (jobs σ) → timers σ' = timers_without id σ →
  tracked σ' ∧ ∀ h, ¬ live_trigger σ' id h.
Proof.
  intros Htr Hj Ht.
  assert (∀ h t, timers σ' !! h = Some t → task_running t = true →
            timers σ !! h = Some t ∧ task_scheduleId t ≠ id) as Hkeep.
  { intros h t Hl Hr. rewrite Ht in Hl. unfold timers_without in Hl.
    destruct (jobs σ !! id) as [hd|] eqn:Hd.
    - rewrite list_lookup_alter in Hl. case_decide as Hne.
      + apply fmap_Some in Hl as (t0 & _ & ->). done.
      + split; [done|].
        intros Hid. pose proof (Htr h t Hl Hr) as Hin. rewrite Hid in Hin.
        congruence.
    - split; [done|]. intros Hid. pose proof (Htr h t Hl Hr) as Hin.
      rewrite Hid in Hin. congruence. }
  split.
  - intros h t Hl Hr. destruct (Hkeep h t Hl Hr) as [Hl' Hne].
    rewrite Hj, lookup_delete_ne by done. by apply Htr.
  - intros h (t & Hl & Hr & Hid). by destruct (Hkeep h t Hl Hr).
Qed.

(** A trigger created for [id] while none is stored for it is the only
    running trigger that fires [id]. *)
Lemma tracked_registered σ σ' id expression tz :
  tracked σ → jobs σ !! id = None →
  jobs σ' = <[id := length (timers σ)]> (jobs σ) →
  timers σ' = (timers σ ++
    [{| task_expression := expression; task_timezone := tz;
        task_scheduleId := id; task_running := true |}])%list →
  tracked σ' ∧ live_trigger σ' id (length (timers σ)).
Proof.
  intros Htr Hnone Hj Ht. split.
  - intros h t Hl Hr. rewrite Ht in Hl. rewrite Hj.
    apply lookup_app_Some in Hl as [Hl|[Hge Hl]].
    + pose proof (Htr h t Hl Hr) as Hin.
      rewrite lookup_insert_ne; [done|]. intros Hid. rewrite <- Hid in Hin.
      congruence.
    + apply list_lookup_singleton_Some in Hl as [Hz <-]. simpl.
      rewrite lookup_insert_eq. f_equal. lia.
  - eexists. rewrite Ht. split.
    + rewrite lookup_app_r by lia. by rewrite Nat.sub_diag.
    + done.
Qed.

Lemma live_trigger_is_live σ id h :
  live_trigger σ id h ↔ ∃ t, timers σ !! h = Some t ∧ is_live id t = true.
Proof.
  unfold live_trigger, is_live. split; intros (t & Hl & H); exists t.
  - destruct H as [-> <-]. split; [done|]. by rewrite String.eqb_refl.
  - apply andb_true_iff in H as [Hr Hid%String.eqb_eq]. done.
Qed.

Lemma count_none {A} (P : A → Prop) `{∀ x, Decision (P x)} (l : list A) :
  (∀ i x, l !! i = Some x → ¬ P x) → length (filter P l) = 0%nat.
Proof.
  intros Hno. induction l as [|a l IH]; [done|].
  rewrite filter_cons_False; [|by apply (Hno 0%nat)].
  apply IH. intros i x Hl. by apply (Hno (S i)).
Qed.

Lemma count_unique {A} (P : A → Prop) `{∀ x, Decision (P x)} (l : list A) i x :
  l !! i = Some x → P x →
  (∀ j y, l !! j = Some y → P y → j = i) →
  length (filter P l) = 1%nat.
Proof.
  revert i. induction l as [|a l IH]; intros i Hl Hx Huniq; [done|].
  destruct i as [|i]; simpl in Hl.
  - injection Hl as ->. rewrite filter_cons_True by done. simpl. f_equal.
    apply count_none. intros j y Hj Hy.
    by pose proof (Huniq (S j) y Hj Hy).
  - rewrite filter_cons_False.
    + apply (IH i); [done..|]. intros j y Hj Hy.
      pose proof (Huniq (S j) y Hj Hy). lia.
    + intros Ha. by pose proof (Huniq 0%nat a eq_refl Ha).
Qed.

Lemma live_count_zero σ id :
  (∀ h, ¬ live_trigger σ id h) → live_count id σ = 0%nat.
Proof.
  intros Hno. unfold live_count. apply count_none. intros i t Hl Hlive.
  apply (Hno i), live_trigger_is_live. by exists t.
Qed.

(** With every running trigger stored, a running trigger for a schedule
    is the only one. *)
Lemma live_count_one σ id h :
  tracked σ → live_trigger σ id h → live_count id σ = 1%nat.
Proof.
  intros Htr Hlive.
  pose proof Hlive as (t & Hl & Ht)%live_trigger_is_live.
  unfold live_count. apply (count_unique _ _ h t); [done..|].
  intros j y Hj Hy.
  assert (live_trigger σ id j) as (t' & Hl' & Hr' & Hid').
  { apply live_trigger_is_live. by exists y. }
  destruct Hlive as (t0 & Hl0 & Hr0 & Hid0).
  pose proof (Htr _ _ Hl' Hr') as H1. pose proof (Htr _ _ Hl0 Hr0) as H2.
  rewrite Hid' in H1. rewrite Hid0 in H2. congruence.
Qed.

Lemma live_count_le_1 σ id : tracked σ → (live_count id σ ≤ 1)%nat.
Proof.
  intros Htr.
  destruct (filter (fun t => is_live id t = true) (timers σ)) as [|t l] eqn:E.
  - unfold live_count. rewrite E. simpl. lia.
  - assert (t ∈ filter (fun t => is_live id t = true) (timers σ)) as Hin.
    { rewrite E. left. }
    apply list_elem_of_filter in Hin as [Ht Hin].
    apply list_elem_of_lookup in Hin as [h Hl].
    rewrite (live_count_one σ id h); [lia|done|].
    apply live_trigger_is_live. by exists t.
Qed.

(** ** Steps of the service *)

Section Steps.

Variable calculateNextExecution : Schedule → Z → Completion Z.
Variable resolveDynamicInputs :
  Val → Flow → option Z → string → Z → Completion Val.
Variable executeFlow :
  Flow → Val → string → string → string → World → Completion Val * World.
Variable cron_validate : string → bool.

Abbreviation register_try :=
  (register_try calculateNextExecution cron_validate).
Abbreviation registerSchedule :=
  (registerSchedule calculateNextExecution cron_validate).
Abbreviation register_each :=
  (register_each calculateNextExecution cron_validate).
Abbreviation initialize := (initialize calculateNextExecution cron_validate).
Abbreviation reloadSchedule :=
  (reloadSchedule calculateNextExecution cron_validate).
Abbreviation fire_try :=
  (fire_try calculateNextExecution resolveDynamicInputs executeFlow).
Abbreviation fire_catch := (fire_catch calculateNextExecution).
Abbreviation executeScheduledFlow :=
  (executeScheduledFlow calculateNextExecution resolveDynamicInputs executeFlow).

Lemma store_access_cases σ :
  store_access σ = (Normal tt, set_faults (tail (faults σ)) σ) ∨
  ∃ e, head (faults σ) = Some (Some e) ∧
       store_access σ = (Throw e, set_faults (tail (faults σ)) σ).
Proof.
  unfold store_access. destruct σ as [j i w f t tr]; simpl.
  destruct f as [|[e|] f]; simpl; eauto.
Qed.

Lemma store_access_answers σ :
  answers σ = true →
  store_access σ = (Normal tt, set_faults (tail (faults σ)) σ).
Proof.
  unfold answers, store_access. destruct σ as [j i w f t tr]; simpl.
  by destruct f as [|[e|] f].
Qed.

(** What [unregisterSchedule] leaves: the entry is gone and its trigger,
    if there was one, is stopped. *)
Lemma unregisterSchedule_run id σ :
  ∃ σ', unregisterSchedule id σ = (Normal tt, σ') ∧
    jobs σ' = delete id (jobs σ) ∧
    timers σ' = timers_without id σ ∧
    world σ' = world σ ∧ faults σ' = faults σ ∧
    initialized σ' = initialized σ.
Proof.
  unfold unregisterSchedule, timers_without, bind, gets, stop, emit, modify, ret.
  simpl.
  destruct (jobs σ !! id) as [h|] eqn:E; simpl.
  - eexists. split; [reflexivity|]. by simpl.
  - eexists. split; [reflexivity|]. simpl. repeat split.
    by rewrite delete_id.
Qed.

Lemma unregisterSchedule_length id σ σ' r :
  unregisterSchedule id σ = (r, σ') → length (timers σ') = length (timers σ).
Proof.
  destruct (unregisterSchedule_run id σ) as (σ1 & -> & _ & Ht & _).
  intros [= _ <-]. rewrite Ht. unfold timers_without.
  destruct (jobs σ !! id); [|done]. apply length_alter.
Qed.

Lemma head_fault_answers σ e :
  head (faults σ) = Some (Some e) → answers σ = false.
Proof. unfold answers. by destruct (faults σ) as [|[?|] ?]. Qed.

(** One step of a symbolic run of a method body: decide the next thing the
    body depends on. *)
Ltac run_step :=
  match goal with
  | |- context [if ?b then _ else _] => destruct b eqn:?
  | |- context [store_access ?s] =>
      let E := fresh "E" in let e := fresh "e" in let Hh := fresh "Hh" in
      destruct (store_access_cases s) as [E|(e & Hh & E)]; rewrite E; clear E
  | |- context [unregisterSchedule ?id ?s] =>
      let σu := fresh "σu" in let E := fresh "E" in
      let Hj := fresh "Hj" in let Ht := fresh "Ht" in
      let Hw := fresh "Hw" in let Hf := fresh "Hf" in let Hi := fresh "Hi" in
      destruct (unregisterSchedule_run id s) as (σu & E & Hj & Ht & Hw & Hf & Hi);
      rewrite E; clear E
  | |- context [executeFlow ?f ?v ?u ?t ?i ?w] =>
      destruct (executeFlow f v u t i w) as [[?|?] ?] eqn:?
  | |- context [match ?x with Normal _ => _ | Throw _ => _ end] =>
      destruct x as [?|?] eqn:?
  | |- context [fmap _ (?m !! ?k)] => destruct (m !! k) as [?|] eqn:?
  | |- context [match ?x with Some _ => _ | None => _ end] =>
      destruct x as [?|] eqn:?
  end; cbn.

Ltac run_body := cbn; repeat run_step.

(** When the translation raises, [registerSchedule] raises the same error,
    after it has dropped the trigger it held for the schedule. *)
Lemma registerSchedule_rejected (d : ScheduleDoc) e σ :
  toCronExpression d = Throw e →
  ∃ σ', registerSchedule d σ = (Throw e, σ') ∧
    jobs σ' = delete (_id d) (jobs σ) ∧
    length (timers σ') = length (timers σ) ∧ world σ' = world σ.
Proof.
  intros He.
  unfold registerSchedule, register_try, bind, gets, try_catch, step, throw, ret.
  cbn. case_bool_decide as Hj.
  - destruct (unregisterSchedule_run (_id d) σ) as (σ1 & E & Hjobs & Ht & Hw & _).
    rewrite E, He. eexists. split; [reflexivity|]. repeat split; try done.
    eapply unregisterSchedule_length, E.
  - rewrite He. eexists. split; [reflexivity|]. repeat split.
    symmetry. apply delete_id. by apply eq_None_not_Some.
Qed.

(** C8: a schedule whose type is none of cron, interval, daily, weekly and
    monthly, and an interval schedule whose unit is none of minutes, hours
    and days, make the translation raise an error that names the offending
    value; [registerSchedule] then raises that error and stores no trigger. *)
Theorem unrecognized_schedule_rejected (d : ScheduleDoc) :
  (known_type (scheduleType d) = false →
   let e := Err ("Unknown schedule type: " +:+ scheduleType d) in
   toCronExpression d = Throw e ∧
   ∀ σ, ∃ σ', registerSchedule d σ = (Throw e, σ') ∧
     jobs σ' !! _id d = None ∧ length (timers σ') = length (timers σ)) ∧
  (scheduleType d = "interval" → known_unit (intervalUnit d) = false →
   let e := Err ("Unknown interval unit: " +:+ intervalUnit d) in
   toCronExpression d = Throw e ∧
   ∀ σ, ∃ σ', registerSchedule d σ = (Throw e, σ') ∧
     jobs σ' !! _id d = None ∧ length (timers σ') = length (timers σ)).
Proof.
  split.
  - intros Ht e. pose proof (toCronExpression_unknown_type d Ht) as He.
    split; [done|]. intros σ.
    destruct (registerSchedule_rejected d e σ He) as (σ' & E & Hj & Hl & _).
    exists σ'. rewrite Hj. split; [done|]. split; [apply lookup_delete_eq|done].
  - intros Ht Hu e. pose proof (toCronExpression_unknown_unit d Ht Hu) as He.
    split; [done|]. intros σ.
    destruct (registerSchedule_rejected d e σ He) as (σ' & E & Hj & Hl & _).
    exists σ'. rewrite Hj. split; [done|]. split; [apply lookup_delete_eq|done].
Qed.

(** ** reloadSchedule *)

(** C10: for a schedule id the store does not hold, [reloadSchedule] raises:
    'Schedule not found' when the store answers the read, the store's own
    error otherwise; either way the triggers the service holds stay as
    they are. *)
Theorem reloadSchedule_missing (scheduleId : string) σ :
  schedules (world σ) !! scheduleId = None →
  ∃ e σ', reloadSchedule scheduleId σ = (Throw e, σ') ∧
    (answers σ = true → e = Err "Schedule not found") ∧
    jobs σ' = jobs σ ∧ timers σ' = timers σ ∧ world σ' = world σ.
Proof.
  intros Hnone.
  unfold reloadSchedule, findById, bind, emit, modify, gets, throw.
  cbn.
  match goal with |- context [store_access ?s] =>
    destruct (store_access_cases s) as [E|(e & Hh & E)]; rewrite E end.
  - cbn. rewrite Hnone. cbn. by eexists _, _.
  - eexists _, _. split; [reflexivity|]. split; [|done].
    apply head_fault_answers in Hh. change (answers σ = false) in Hh.
    intros Ha. congruence.
Qed.

(** ** registerSchedule *)

(** The guarded block, started with no trigger stored for the schedule:
    when it completes, the trigger it created is stored and is the one
    running trigger of the schedule; when it raises, no trigger was
    created. *)
Lemma register_try_run (d : ScheduleDoc) σ r σ' :
  tracked σ → jobs σ !! _id d = None →
  register_try d σ = (r, σ') →
  tracked σ' ∧
  match r with
  | Normal _ =>
      jobs σ' !! _id d = Some (length (timers σ)) ∧
      live_trigger σ' (_id d) (length (timers σ)) ∧
      length (timers σ') = S (length (timers σ))
  | Throw _ => jobs σ' = jobs σ ∧ timers σ' = timers σ
  end.
Proof.
  intros Htr Hnone.
  unfold register_try, cron_schedule, save, call_calculateNextExecution,
    bind, gets, modify, step, emit, ret, throw.
  run_body; intros [= <- <-]; cbn.
  all: try (split; [by apply (tracked_same σ)|done]).
  all: match goal with |- tracked ?s ∧ _ =>
         edestruct (tracked_registered σ s (_id d)) as [H1 H2];
           [exact Htr|exact Hnone|reflexivity|reflexivity|] end.
  all: split; [done|]; split; [apply lookup_insert_eq|]; split; [done|].
  all: cbn; rewrite length_app; simpl; lia.
Qed.

(** [registerSchedule] keeps every running trigger stored, and when it
    completes the schedule has exactly the trigger just created. *)
Lemma registerSchedule_run (d : ScheduleDoc) σ r σ' :
  tracked σ → registerSchedule d σ = (r, σ') →
  tracked σ' ∧
  (r = Normal tt →
     jobs σ' !! _id d = Some (length (timers σ)) ∧
     live_trigger σ' (_id d) (length (timers σ)) ∧
     length (timers σ') = S (length (timers σ))).
Proof.
  intros Htr. unfold registerSchedule.
  unfold bind at 1. unfold gets at 1. cbv beta iota.
  rewrite try_catch_rethrow_bind.
  case_bool_decide as Hhas.
  - destruct (unregisterSchedule_run (_id d) σ) as (σu & E & Hj & Ht & _).
    rewrite (bind_run _ _ _ _ _ E).
    destruct (tracked_unregistered σ σu (_id d) Htr Hj Ht) as [Htru _].
    assert (jobs σu !! _id d = None) as Hnone.
    { rewrite Hj. apply lookup_delete_eq. }
    assert (length (timers σu) = length (timers σ)) as Hlen.
    { eapply unregisterSchedule_length, E. }
    intros Hrun. destruct (register_try_run d σu r σ' Htru Hnone Hrun) as [H1 H2].
    split; [done|]. intros ->. by rewrite <- Hlen.
  - rewrite (bind_run _ _ σ tt σ) by done.
    assert (jobs σ !! _id d = None) as Hnone by by apply eq_None_not_Some.
    intros Hrun. destruct (register_try_run d σ r σ' Htr Hnone Hrun) as [H1 H2].
    split; [done|]. by intros ->.
Qed.

(** However a registration ends, no schedule id has two running triggers. *)
Lemma registerSchedule_at_most_one (d : ScheduleDoc) σ r σ' :
  tracked σ → registerSchedule d σ = (r, σ') →
  ∀ id, (live_count id σ' ≤ 1)%nat.
Proof.
  intros Htr Hrun id. apply live_count_le_1.
  by destruct (registerSchedule_run d σ r σ' Htr Hrun).
Qed.

(** C6: from a state in which every running trigger is stored, two calls
    of [registerSchedule] for the same schedule id that both complete leave
    exactly one running trigger for that id: the one the second call
    created and stored, the first call's being stopped.  No schedule id has
    more than one running trigger. *)
Theorem registerSchedule_twice (d1 d2 : ScheduleDoc) σ σ1 σ2 :
  tracked σ → _id d1 = _id d2 →
  registerSchedule d1 σ = (Normal tt, σ1) →
  registerSchedule d2 σ1 = (Normal tt, σ2) →
  live_count (_id d1) σ2 = 1%nat ∧
  (∃ h1 h2, jobs σ1 !! _id d1 = Some h1 ∧ jobs σ2 !! _id d1 = Some h2 ∧
     h1 ≠ h2 ∧ live_trigger σ2 (_id d1) h2 ∧ ¬ live_trigger σ2 (_id d1) h1) ∧
  ∀ id, (live_count id σ2 ≤ 1)%nat.
Proof.
  intros Htr Hid H1 H2.
  destruct (registerSchedule_run d1 σ _ σ1 Htr H1) as [Htr1 Hr1].
  destruct (Hr1 eq_refl) as (Hj1 & Hl1 & Hlen1).
  destruct (registerSchedule_run d2 σ1 _ σ2 Htr1 H2) as [Htr2 Hr2].
  destruct (Hr2 eq_refl) as (Hj2 & Hl2 & Hlen2). rewrite <- Hid in Hj2, Hl2.
  split; [by eapply live_count_one|]. split; [|intros id; by apply live_count_le_1].
  eexists _, _. split; [exact Hj1|]. split; [exact Hj2|]. split; [lia|].
  split; [done|]. intros (t & Hl & Hr & Hi).
  pose proof (Htr2 _ _ Hl Hr) as Hin. rewrite Hi, Hj2 in Hin.
  injection Hin. lia.
Qed.

(** ** initialize *)

Lemma initialize_sets_flag σ σ1 :
  initialize σ = (Normal tt, σ1) → initialized σ1 = true.
Proof.
  unfold initialize. intros (done & σa & [= <- <-] & H)%bind_normal.
  destruct (initialized σ) eqn:Hi; [by injection H as <-|].
  rewrite try_catch_rethrow in H.
  apply bind_normal in H as (found & σ2 & _ & H).
  apply bind_normal in H as ([] & σ3 & _ & H).
  by injection H as <-.
Qed.

Lemma initialize_again σ :
  initialized σ = true → initialize σ = (Normal tt, σ).
Proof.
  intros Hi. unfold initialize, bind, gets, ret. cbn. by rewrite Hi.
Qed.

(** C9: after a call of [initialize] that completed, a second call returns
    at once and leaves the whole system as it was: the trace gains no store
    query and no trigger creation, and the trigger map and the triggers are
    unchanged. *)
Theorem initialize_idempotent σ σ1 :
  initialize σ = (Normal tt, σ1) →
  initialize σ1 = (Normal tt, σ1).
Proof. intros H. apply initialize_again. eapply initialize_sets_flag, H. Qed.

(** ** executeScheduledFlow: the two guards *)

(** The firing handler up to its first decision: the read raised, or it
    found nothing, or it found a document. *)
Lemma findById_run id σ :
  let σ0 := set_faults (tail (faults σ))
              (set_trace (trace σ ++ [QueryFindById id]) σ) in
  findById id σ =
    (Normal (populate (world σ) <$> schedules (world σ) !! id), σ0) ∨
  ∃ e, answers σ = false ∧ findById id σ = (Throw e, σ0).
Proof.
  unfold findById, bind, emit, modify, gets. cbn.
  match goal with |- context [store_access ?s] =>
    destruct (store_access_cases s) as [E|(e & Hh & E)]; rewrite E end.
  - by left.
  - right. exists e. split; [|done]. by apply head_fault_answers in Hh.
Qed.

(** C3: when the schedule read at fire time has isCurrentlyRunning set, the
    handler returns normally having done nothing but the read: the store
    (schedules, flows, Execution records) is unchanged, the flow executor is
    not called, nothing is saved, and the triggers are untouched. *)
Theorem running_schedule_skipped (scheduleId : string) σ (s : Schedule) :
  schedules (world σ) !! scheduleId = Some s →
  isCurrentlyRunning s = true →
  ∃ σ', executeScheduledFlow scheduleId σ = (Normal tt, σ') ∧
    world σ' = world σ ∧
    trace σ' = (trace σ ++ [QueryFindById scheduleId])%list ∧
    jobs σ' = jobs σ ∧ timers σ' = timers σ ∧
    initialized σ' = initialized σ.
Proof.
  intros Hs Hrun.
  unfold executeScheduledFlow, run_with, try_catch, fire_try.
  unfold bind at 1. unfold lift.
  destruct (findById_run scheduleId σ) as [E|(e & _ & E)]; cbv zeta in E;
    rewrite E.
  - rewrite Hs. cbn. rewrite Hrun. destruct (enabled s); cbn; by eexists.
  - cbn. by eexists.
Qed.

(** ** executeScheduledFlow: the failure handler *)

Lemma fire_catch_normal id e (h : ScheduleDoc) σ1 l' σ' :
  fire_catch id e (Some h, σ1) = (Normal tt, (l', σ')) →
  let n := plus_1 (failures_or_0 h) in
  ∃ hf : ScheduleDoc,
    l' = Some hf ∧
    world σ' = set_schedules
      (<[_id h := persisted hf]> (schedules (world σ1))) (world σ1) ∧
    _id hf = _id h ∧
    lastExecutionStatus hf = Some "failed" ∧
    consecutiveFailures hf = Some n ∧
    isCurrentlyRunning hf = false ∧
    lastExecutedAt hf = Some (clock (world σ1)) ∧
    executionCount hf = executionCount h ∧
    cadence hf = cadence h ∧
    (3 ≤ n →
       enabled hf = false ∧
       pausedReason hf = Some ("Paused after " +:+ pretty n +:+
         " consecutive failures: " +:+ message e) ∧
       jobs σ' = delete id (jobs σ1) ∧
       timers σ' = timers_without id σ1) ∧
    (n < 3 →
       enabled hf = enabled h ∧ pausedReason hf = pausedReason h ∧
       jobs σ' = jobs σ1 ∧ timers σ' = timers σ1 ∧
       ∃ arg next, cadence arg = cadence h ∧
         calculateNextExecution arg (clock (world σ1)) = Normal next ∧
         nextExecutionAt hf = Some next).
Proof.
  unfold fire_catch, var, the_schedule, field, lift, save, new_Date,
    call_calculateNextExecution, bind, gets, modify, step, emit, ret,
    failures_or_0.
  run_body; try (by intros [=]);
    intros [= <- <-]; cbn; eexists; (split; [reflexivity|]); cbn;
    rewrite ?Z.leb_le, ?Z.leb_gt in *; unfold failures_or_0; cbn.
  all: repeat split; try done; try lia; try congruence.
  all: do 2 eexists; (split; [|split; [eassumption|reflexivity]]); reflexivity.
Qed.

(** ** executeScheduledFlow: the guarded block *)

Ltac unfold_fire :=
  unfold fire_try, fire_catch, findById, var, set_var, the_schedule, field,
    flow_write, lift, save, new_Date, call_calculateNextExecution,
    call_resolveDynamicInputs, call_executeFlow, bind, gets, modify, step,
    emit, ret, throw.

(** How the guarded block can raise. *)
Lemma fire_try_throw id σ e l1 σ1 :
  fire_try id (None, σ) = (Throw e, (l1, σ1)) →
  (l1 = None ∧ answers σ = false) ∨
  ∃ (s : Schedule) (h : ScheduleDoc),
    schedules (world σ) !! id = Some s ∧
    enabled s = true ∧ isCurrentlyRunning s = false ∧
    l1 = Some h ∧ _id h = _id s ∧ cadence h = cadence s ∧
    (isCurrentlyRunning h = true →
       enabled h = true ∧ jobs σ1 = jobs σ ∧ timers σ1 = timers σ) ∧
    ((jobs σ1 = jobs σ ∧ timers σ1 = timers σ) ∨
     (jobs σ1 = delete id (jobs σ) ∧ timers σ1 = timers_without id σ)).
Proof.
  unfold_fire. run_body; try (by intros [=]); intros [= <- <- <-]; cbn in *.
  all: try (left; split; [done|]; by eapply head_fault_answers).
  all: right; eexists _, _; (split; [reflexivity|]); cbn.
  all: rewrite ?negb_false_iff in *.
  all: repeat split; try done; try (by left); try (by right).
Qed.


(** How the guarded block can complete: it found nothing, or it skipped a
    disabled or running schedule, or it ran the flow and saved a success. *)
Lemma fire_try_normal id σ l1 σ1 :
  fire_try id (None, σ) = (Normal tt, (l1, σ1)) →
  (l1 = None ∧ schedules (world σ) !! id = None ∧ world σ1 = world σ ∧
   jobs σ1 = jobs σ ∧ timers σ1 = timers σ) ∨
  (∃ s : Schedule,
     schedules (world σ) !! id = Some s ∧
     (enabled s = false ∨ isCurrentlyRunning s = true) ∧
     l1 = Some (populate (world σ) s) ∧ world σ1 = world σ ∧
     jobs σ1 = jobs σ ∧ timers σ1 = timers σ) ∨
  (∃ (s : Schedule) (hf : ScheduleDoc),
     schedules (world σ) !! id = Some s ∧
     enabled s = true ∧ isCurrentlyRunning s = false ∧
     l1 = Some hf ∧ _id hf = _id s ∧
     schedules (world σ1) !! _id s = Some (persisted hf) ∧
     lastExecutionStatus hf = Some "success" ∧
     executionCount hf = plus_1 (executionCount s) ∧
     consecutiveFailures hf = Some 0 ∧
     isCurrentlyRunning hf = false ∧
     maxExecutions hf = maxExecutions s ∧
     cadence hf = cadence s ∧
     (max_reached hf = true →
        enabled hf = false ∧
        pausedReason hf = Some "Max executions reached" ∧
        jobs σ1 = delete id (jobs σ) ∧ timers σ1 = timers_without id σ) ∧
     (max_reached hf = false →
        enabled hf = true ∧ pausedReason hf = pausedReason s ∧
        jobs σ1 = jobs σ ∧ timers σ1 = timers σ)).
Proof.
  unfold_fire. run_body; try (by intros [=]); intros [= <- <-]; cbn in *.
  all: rewrite ?negb_false_iff, ?negb_true_iff in *.
  all: first
    [ left; split; [reflexivity|]; repeat split; reflexivity
    | right; left; eexists; split; [reflexivity|];
      split; [(by left) || (by right)|]; repeat split; reflexivity
    | right; right; eexists _, _; split; [reflexivity|];
      split; [assumption|]; split; [assumption|]; split; [reflexivity|] ].
  all: cbn; repeat split; try reflexivity; try assumption.
  all: try apply lookup_insert_eq.
  all: unfold max_reached in *; cbn in *; congruence.
Qed.

(** ** executeScheduledFlow: the whole handler *)

Lemma fire_catch_none id e σ1 :
  fire_catch id e (None, σ1) = (Normal tt, (None, σ1)).
Proof. reflexivity. Qed.

(** A call that returns either completed its guarded block or raised in it
    and completed the failure handler. *)
Lemma executeScheduledFlow_normal id σ σ' :
  executeScheduledFlow id σ = (Normal tt, σ') →
  (∃ l, fire_try id (None, σ) = (Normal tt, (l, σ'))) ∨
  (∃ e l1 σ1 l', fire_try id (None, σ) = (Throw e, (l1, σ1)) ∧
     fire_catch id e (l1, σ1) = (Normal tt, (l', σ'))).
Proof.
  unfold executeScheduledFlow, run_with, try_catch.
  destruct (fire_try id (None, σ)) as [[[]|e] [l1 σ1]].
  - intros [= <-]. left. by eexists.
  - destruct (fire_catch id e (l1, σ1)) as [[[]|e'] [l' σ2]] eqn:E; [|done].
    intros [= <-]. right. by eexists _, _, _, _.
Qed.

(** The guard reads a cap of 0 as no cap. *)
Lemma max_reached_zero (s : Schedule) :
  maxExecutions s = Some 0 → max_reached s = false.
Proof. intros Hm. unfold max_reached, truthy_num. by rewrite Hm. Qed.

Lemma max_reached_cap (s : Schedule) m :
  maxExecutions s = Some m → m ≠ 0 → m ≤ executionCount s →
  max_reached s = true.
Proof.
  intros Hm Hnz Hle. unfold max_reached, truthy_num. rewrite Hm.
  apply andb_true_iff. split; [apply negb_true_iff|]; lia.
Qed.


(** C5, amended: a firing of an enabled, idle schedule that ended with a
    persisted success has incremented the execution count; when
    maxExecutions is set and is not 0, and the incremented count has
    reached it, the persisted schedule is disabled with pausedReason "Max
    executions reached", its trigger is removed from the map, and no
    running trigger fires it any more. *)
Theorem max_executions_pauses id σ (s : Schedule) m σ' (s' : Schedule) :
  schedules (world σ) !! id = Some s → answers σ = true →
  enabled s = true → isCurrentlyRunning s = false →
  maxExecutions s = Some m → m ≠ 0 → m ≤ plus_1 (executionCount s) →
  executeScheduledFlow id σ = (Normal tt, σ') →
  schedules (world σ') !! _id s = Some s' →
  lastExecutionStatus s' = Some "success" →
  executionCount s' = plus_1 (executionCount s) ∧
  enabled s' = false ∧
  pausedReason s' = Some "Max executions reached" ∧
  jobs σ' !! id = None ∧
  (tracked σ → live_count id σ' = 0%nat).
Proof.
  intros Hs Hans Hen Hnr Hm Hnz Hle Hrun Hs' Hok.
  apply executeScheduledFlow_normal in Hrun
    as [[l Hn]|(e' & l1 & σ1 & l' & Ht & Hc)].
  - destruct (fire_try_normal _ _ _ _ Hn)
      as [(_ & Hnone & _)|[(s0 & Hs0 & [Hd|Hd] & _)|
          (s0 & hf & Hs0 & _ & _ & -> & Hid & Hp & Hst & Hec & Hcf & Hr & Hmx
             & Hcad & Hmax & _)]]; try congruence.
    assert (s0 = s) as -> by congruence.
    assert (s' = persisted hf) as -> by congruence.
    assert (max_reached hf = true) as Hreached.
    { apply (max_reached_cap _ m); [congruence|done|lia]. }
    destruct (Hmax Hreached) as (Hen' & Hpr & Hj & Htm).
    do 3 (split; [done|]). split; [rewrite Hj; apply lookup_delete_eq|].
    intros Htr. apply live_count_zero.
    by destruct (tracked_unregistered σ σ' id Htr Hj Htm).
  - exfalso.
    destruct (fire_try_throw _ _ _ _ _ Ht)
      as [[_ ?]|(s0 & h & Hs0 & _ & _ & -> & Hid & _)]; [congruence|].
    assert (s0 = s) as -> by congruence.
    destruct (fire_catch_normal _ _ _ _ _ _ Hc)
      as (hf & _ & Hw & _ & Hst & _).
    rewrite Hw, Hid in Hs'. cbn in Hs'. rewrite lookup_insert_eq in Hs'.
    congruence.
Qed.

(** With the flow gone, the guarded block marks the schedule running,
    tries to save it and raises before it reaches the flow executor; when
    the store takes that save, what it raises is the missing flow. *)
Lemma fire_try_missing_flow id σ (s : Schedule) :
  schedules (world σ) !! id = Some s → answers σ = true →
  enabled s = true → isCurrentlyRunning s = false →
  flows (world σ) !! flowId s = None →
  ∃ e σ1,
    fire_try id (None, σ) =
      (Throw e, (Some (assign (set_isCurrentlyRunning true)
                         (populate (world σ) s)), σ1)) ∧
    executions (world σ1) = executions (world σ) ∧
    (trace σ1 = trace σ ++ [QueryFindById id; QuerySave (_id s)])%list ∧
    (answers (set_faults (tail (faults σ)) σ) = true →
       e = Err "Flow not found" ∧
       schedules (world σ1) !! _id s = Some (set_isCurrentlyRunning true s)).
Proof.
  intros Hs Hans Hen Hnr Hflow. unfold_fire. cbn.
  rewrite store_access_answers by exact Hans. cbn.
  rewrite Hs. cbn. rewrite Hen, Hnr. cbn.
  run_step.
  - rewrite Hflow. cbn. eexists _, _. split; [reflexivity|]. cbn.
    split; [done|]. split; [by rewrite <- app_assoc|].
    intros _. split; [reflexivity|]. apply lookup_insert_eq.
  - eexists _, _. split; [reflexivity|]. cbn.
    split; [done|]. split; [by rewrite <- app_assoc|].
    intros Hans2. exfalso.
    assert (answers (set_faults (tail (faults σ)) σ) = false) as Hno
      by (by eapply head_fault_answers).
    congruence.
Qed.

(** C2, amended: when the schedule read at fire time is enabled and idle
    but its flow no longer exists, and the store takes the read and the
    save that marks the schedule running, the handler does change state:
    its guarded block persists the schedule as running and raises 'Flow
    not found' without reaching the flow executor, and whenever the call
    returns the persisted schedule is marked failed with
    consecutiveFailures incremented and no longer running; no Execution
    record appears and executionCount stays. *)
Theorem missing_flow_is_a_failure id σ (s : Schedule) :
  schedules (world σ) !! id = Some s → answers σ = true →
  answers (set_faults (tail (faults σ)) σ) = true →
  enabled s = true → isCurrentlyRunning s = false →
  flows (world σ) !! flowId s = None →
  ∃ σ1,
    fire_try id (None, σ) =
      (Throw (Err "Flow not found"),
       (Some (assign (set_isCurrentlyRunning true) (populate (world σ) s)),
        σ1)) ∧
    schedules (world σ1) !! _id s = Some (set_isCurrentlyRunning true s) ∧
    (trace σ1 = trace σ ++ [QueryFindById id; QuerySave (_id s)])%list ∧
    ∀ σ', executeScheduledFlow id σ = (Normal tt, σ') →
      ∃ s' : Schedule,
        schedules (world σ') !! _id s = Some s' ∧
        lastExecutionStatus s' = Some "failed" ∧
        consecutiveFailures s' = Some (plus_1 (failures_or_0 s)) ∧
        isCurrentlyRunning s' = false ∧
        executionCount s' = executionCount s ∧
        executions (world σ') = executions (world σ).
Proof.
  intros Hs Hans Hans2 Hen Hnr Hflow.
  destruct (fire_try_missing_flow id σ s Hs Hans Hen Hnr Hflow)
    as (e & σ1 & Htry & Hex & Htrace & Hsaved).
  destruct (Hsaved Hans2) as [-> Hmarked].
  exists σ1. do 3 (split; [done|]). intros σ' Hrun.
  apply executeScheduledFlow_normal in Hrun
    as [[l Hn]|(e' & l1 & σ1' & l' & Ht & Hc)]; [congruence|].
  rewrite Htry in Ht. injection Ht as <- <- <-.
  destruct (fire_catch_normal _ _ _ _ _ _ Hc)
    as (hf & _ & Hw & Hidf & Hst & Hcf & Hr & Hat & Hec & _).
  exists (persisted hf). rewrite Hw. cbn in *.
  split; [apply lookup_insert_eq|]. by repeat split.
Qed.

(** ** The triggers stay tracked *)

Lemma tracked_unregisterSchedule id σ r σ' :
  tracked σ → unregisterSchedule id σ = (r, σ') → tracked σ'.
Proof.
  intros Htr. destruct (unregisterSchedule_run id σ) as (σu & -> & Hj & Ht & _).
  intros [= _ <-]. by destruct (tracked_unregistered σ σu id Htr Hj Ht).
Qed.

Lemma tracked_register_each found σ r σ' :
  tracked σ → register_each found σ = (r, σ') → tracked σ'.
Proof.
  revert σ. induction found as [|d found IH]; intros σ Htr; simpl.
  - by intros [= _ <-].
  - unfold bind at 1.
    destruct (populated_flowId d).
    + destruct (registerSchedule d σ) as [[[]|e] σ1] eqn:E.
      * apply IH. by destruct (registerSchedule_run d σ _ σ1 Htr E).
      * intros [= _ <-]. by destruct (registerSchedule_run d σ _ σ1 Htr E).
    + cbn. by apply IH.
Qed.

Lemma tracked_initialize σ r σ' :
  tracked σ → initialize σ = (r, σ') → tracked σ'.
Proof.
  intros Htr. unfold initialize, bind at 1, gets at 1.
  destruct (initialized σ); [by intros [= _ <-]|].
  rewrite try_catch_rethrow. unfold find_active, new_Date, emit, bind, gets, modify.
  cbn. run_step; [|by intros [= _ <-]].
  match goal with |- context [register_each ?l ?s] =>
    destruct (register_each l s) as [[[]|e] σ2] eqn:E;
    apply tracked_register_each in E; [|done| |done] end.
  - by intros [= _ <-].
  - by intros [= _ <-].
Qed.

Lemma tracked_reloadSchedule id σ r σ' :
  tracked σ → reloadSchedule id σ = (r, σ') → tracked σ'.
Proof.
  intros Htr. unfold reloadSchedule, bind at 1.
  assert (tracked (set_faults (tail (faults σ))
            (set_trace (trace σ ++ [QueryFindById id]) σ))) as Htr0
    by by apply (tracked_same σ).
  destruct (findById_run id σ) as [E|(e & _ & E)]; cbv zeta in E; rewrite E.
  - destruct (schedules (world σ) !! id) as [s|]; cbn.
    + destruct (enabled s).
      * intros Hr. by destruct (registerSchedule_run _ _ _ _ Htr0 Hr).
      * by apply tracked_unregisterSchedule.
    + by intros [= _ <-].
  - by intros [= _ <-].
Qed.

(** A firing stops at most the trigger of its own schedule. *)
Lemma tracked_executeScheduledFlow id σ r σ' :
  tracked σ → executeScheduledFlow id σ = (r, σ') → tracked σ'.
Proof.
  intros Htr. unfold executeScheduledFlow, run_with, try_catch. unfold_fire.
  run_body; intros [= <- <-]; cbn in *.
  all: first
    [ by apply (tracked_same σ)
    | by destruct (tracked_unregistered σ σu id Htr) ].
Qed.

(** ** How far the containment reaches *)

Ltac store_never_fails Hnil :=
  match goal with
  | Hh : head (faults _) = Some (Some _) |- _ =>
      exfalso; cbn in Hh;
      repeat match goal with
             | Hf : faults _ = _ |- _ => rewrite Hf in Hh; cbn in Hh
             end;
      discriminate Hh
  end.

(** While the store answers every operation and calculateNextExecution
    returns, no failure of the flow, of the input resolver or of the flow
    executor escapes: the call returns, and a firing of an enabled, idle
    schedule ends persisted as a success or as a failure. *)
Lemma executeScheduledFlow_contained id σ :
  faults σ = [] →
  (∀ s now, ∃ next, calculateNextExecution s now = Normal next) →
  ∃ σ', executeScheduledFlow id σ = (Normal tt, σ') ∧
    ∀ s : Schedule, schedules (world σ) !! id = Some s →
      enabled s = true → isCurrentlyRunning s = false →
      ∃ s' : Schedule, schedules (world σ') !! _id s = Some s' ∧
        (lastExecutionStatus s' = Some "success" ∨
         lastExecutionStatus s' = Some "failed").
Proof.
  intros Hnil Htotal.
  unfold executeScheduledFlow, run_with, try_catch. unfold_fire.
  run_body.
  all: try store_never_fails Hnil.
  all: try match goal with
           | H : calculateNextExecution ?a ?b = Throw _ |- _ =>
               exfalso; destruct (Htotal a b); congruence
           end.
  all: eexists; (split; [reflexivity|]); cbn.
  all: rewrite ?negb_false_iff, ?negb_true_iff in *.
  all: intros s' Hs' Hen' Hnr'; simplify_eq; try congruence.
  all: eexists; (split; [apply lookup_insert_eq|]); cbn; by eauto.
Qed.

(** * Further properties of the service *)

(** ** unregisterSchedule *)

Lemma unregisterSchedule_absent id σ :
  jobs σ !! id = None → unregisterSchedule id σ = (Normal tt, σ).
Proof.
  intros Hnone. unfold unregisterSchedule, bind, gets, ret. by rewrite Hnone.
Qed.

Lemma consistent_same σ σ' :
  jobs σ' = jobs σ → timers σ' = timers σ → consistent σ → consistent σ'.
Proof.
  intros Hj Ht [Htr Hst]. split; [by apply (tracked_same σ)|].
  intros id h Hl. rewrite Hj in Hl. destruct (Hst id h Hl) as (t & Hlt & Hr).
  exists t. by rewrite Ht.
Qed.

(** X4: removal is idempotent: [unregisterSchedule] always returns, and
    once it has been called for a schedule id, calling it again for that id
    changes nothing at all (no trigger is stopped a second time). *)
Theorem unregister_again_changes_nothing id σ r σ1 :
  unregisterSchedule id σ = (r, σ1) →
  r = Normal tt ∧ unregisterSchedule id σ1 = (Normal tt, σ1).
Proof.
  destruct (unregisterSchedule_run id σ) as (σu & -> & Hj & _).
  intros [= <- <-]. split; [done|]. apply unregisterSchedule_absent.
  rewrite Hj. apply lookup_delete_eq.
Qed.

(** Stopping the trigger stored for one schedule leaves the running
    triggers of every other schedule as they are. *)
Lemma timers_without_other σ σ' id id' h' :
  stored_live σ → timers σ' = timers_without id σ → id' ≠ id →
  live_trigger σ' id' h' ↔ live_trigger σ id' h'.
Proof.
  intros Hst Ht Hne. unfold live_trigger. rewrite Ht. unfold timers_without.
  destruct (jobs σ !! id) as [h|] eqn:Hj; [|reflexivity].
  destruct (Hst id h Hj) as (t0 & Hl0 & Hr0 & Hid0).
  rewrite list_lookup_alter. case_decide as Hh; [|done]. subst h'.
  rewrite Hl0. simpl. split.
  - intros (t & [= <-] & Hr & _). done.
  - intros (t & [= <-] & _ & Hid). congruence.
Qed.

Lemma stored_live_unregistered σ σ' id :
  stored_live σ → jobs σ' = delete id (jobs σ) →
  timers σ' = timers_without id σ → stored_live σ'.
Proof.
  intros Hst Hj Ht id' h' Hl. rewrite Hj in Hl.
  apply lookup_delete_Some in Hl as [Hne Hl].
  apply (timers_without_other σ σ' id); [done..|congruence|]. by apply Hst.
Qed.

Lemma stored_live_registered σ σ' id expression tz :
  stored_live σ →
  jobs σ' = <[id := length (timers σ)]> (jobs σ) →
  timers σ' = (timers σ ++
    [{| task_expression := expression; task_timezone := tz;
        task_scheduleId := id; task_running := true |}])%list →
  stored_live σ'.
Proof.
  intros Hst Hj Ht id' h' Hl. rewrite Hj in Hl. unfold live_trigger. rewrite Ht.
  destruct (decide (id = id')) as [<-|Hne].
  - rewrite lookup_insert_eq in Hl. injection Hl as <-.
    eexists. split.
    + rewrite lookup_app_r by lia. by rewrite Nat.sub_diag.
    + done.
  - rewrite lookup_insert_ne in Hl by done.
    destruct (Hst id' h' Hl) as (t & Hlt & Hr & Hid).
    exists t. split; [|done]. by apply lookup_app_l_Some.
Qed.

Lemma consistent_unregisterSchedule id σ r σ' :
  consistent σ → unregisterSchedule id σ = (r, σ') → consistent σ'.
Proof.
  intros [Htr Hst].
  destruct (unregisterSchedule_run id σ) as (σu & -> & Hj & Ht & _).
  intros [= _ <-]. split.
  - by destruct (tracked_unregistered σ σu id Htr Hj Ht).
  - by apply (stored_live_unregistered σ σu id).
Qed.

(** X5: from a consistent state, [unregisterSchedule] leaves the schedule
    with no running trigger, keeps the entry and the running trigger of
    every other schedule, and leaves the state consistent. *)
Theorem unregisterSchedule_only_own id σ r σ' :
  consistent σ → unregisterSchedule id σ = (r, σ') →
  consistent σ' ∧ jobs σ' !! id = None ∧ live_count id σ' = 0%nat ∧
  ∀ id', id' ≠ id →
    jobs σ' !! id' = jobs σ !! id' ∧
    ∀ h', live_trigger σ' id' h' ↔ live_trigger σ id' h'.
Proof.
  intros [Htr Hst].
  destruct (unregisterSchedule_run id σ) as (σu & -> & Hj & Ht & _).
  intros [= _ <-].
  destruct (tracked_unregistered σ σu id Htr Hj Ht) as [Htr' Hno].
  split; [split; [done|by apply (stored_live_unregistered σ σu id)]|].
  split; [rewrite Hj; apply lookup_delete_eq|].
  split; [by apply live_count_zero|].
  intros id' Hne. split; [by rewrite Hj, lookup_delete_ne|].
  intros h'. by apply (timers_without_other σ σu id).
Qed.

(** ** registerSchedule *)

(** What the guarded block of [registerSchedule] does to the system. *)
Lemma register_try_effect (d : ScheduleDoc) σ r σ' :
  register_try d σ = (r, σ') →
  initialized σ' = initialized σ ∧
  (is_Some (nextExecutionAt d) → world σ' = world σ) ∧
  match r with
  | Normal _ =>
      ∃ expression, toCronExpression d = Normal expression ∧
        cron_validate expression = true ∧
        jobs σ' = <[_id d := length (timers σ)]> (jobs σ) ∧
        timers σ' = (timers σ ++
          [{| task_expression := expression;
              task_timezone := timezone_or_UTC d;
              task_scheduleId := _id d; task_running := true |}])%list ∧
        (nextExecutionAt d = None →
           ∃ next, calculateNextExecution d (clock (world σ)) = Normal next ∧
             world σ' = set_schedules
               (<[_id d := set_nextExecutionAt (Some next) d]>
                  (schedules (world σ))) (world σ))
  | Throw _ => jobs σ' = jobs σ ∧ timers σ' = timers σ
  end.
Proof.
  unfold register_try, cron_schedule, save, call_calculateNextExecution,
    bind, gets, modify, step, emit, ret, throw.
  run_body; intros [= <- <-]; cbn.
  all: split; [reflexivity|].
  all: split; [first [by intros [? [=]] | reflexivity]|].
  all: try (split; reflexivity).
  all: eexists; split; [reflexivity|]; split; [assumption|].
  all: split; [reflexivity|]; split; [reflexivity|].
  all: first [ by intros [=] | intros _; eexists; split; reflexivity ].
Qed.

Lemma timers_without_absent id σ :
  jobs σ !! id = None → timers_without id σ = timers σ.
Proof. intros Hnone. unfold timers_without. by rewrite Hnone. Qed.

Lemma timers_without_length id σ :
  length (timers_without id σ) = length (timers σ).
Proof.
  unfold timers_without. destruct (jobs σ !! id); [|done]. apply length_alter.
Qed.

(** What [registerSchedule] does to the system. *)
Lemma registerSchedule_effect (d : ScheduleDoc) σ r σ' :
  registerSchedule d σ = (r, σ') →
  initialized σ' = initialized σ ∧
  (is_Some (nextExecutionAt d) → world σ' = world σ) ∧
  match r with
  | Normal _ =>
      ∃ expression, toCronExpression d = Normal expression ∧
        cron_validate expression = true ∧
        jobs σ' = <[_id d := length (timers σ)]> (jobs σ) ∧
        timers σ' = (timers_without (_id d) σ ++
          [{| task_expression := expression;
              task_timezone := timezone_or_UTC d;
              task_scheduleId := _id d; task_running := true |}])%list ∧
        (nextExecutionAt d = None →
           ∃ next, calculateNextExecution d (clock (world σ)) = Normal next ∧
             world σ' = set_schedules
               (<[_id d := set_nextExecutionAt (Some next) d]>
                  (schedules (world σ))) (world σ))
  | Throw _ =>
      jobs σ' = delete (_id d) (jobs σ) ∧
      timers σ' = timers_without (_id d) σ
  end.
Proof.
  unfold registerSchedule. unfold bind at 1. unfold gets at 1. cbv beta iota.
  rewrite try_catch_rethrow_bind.
  case_bool_decide as Hhas.
  - destruct (unregisterSchedule_run (_id d) σ)
      as (σu & E & Hj & Ht & Hw & _ & Hi).
    rewrite (bind_run _ _ _ _ _ E). intros Hrun.
    destruct (register_try_effect d σu r σ' Hrun) as (Hi' & Hw' & Hr).
    split; [congruence|]. split; [intros Hn; rewrite (Hw' Hn); done|].
    destruct r as [[]|e].
    + destruct Hr as (expression & He & Hv & Hj' & Ht' & Hn).
      exists expression. do 2 (split; [done|]).
      split.
      { rewrite Hj', Hj, Ht, timers_without_length. apply insert_delete_eq. }
      split; [by rewrite Ht', Ht|].
      intros Hnone. destruct (Hn Hnone) as (next & Hc & Hw'').
      exists next. rewrite <- Hw. done.
    + destruct Hr as [Hj' Ht']. split; congruence.
  - assert (jobs σ !! _id d = None) as Hnone by by apply eq_None_not_Some.
    rewrite (bind_run _ _ σ tt σ) by done. intros Hrun.
    destruct (register_try_effect d σ r σ' Hrun) as (Hi' & Hw' & Hr).
    do 2 (split; [done|]). rewrite timers_without_absent by done.
    destruct r as [[]|e]; [done|].
    destruct Hr as [Hj' Ht']. by rewrite delete_id.
Qed.

(** X6: a registration that completes has created one trigger and stored
    it under the schedule id: a running trigger whose expression is the
    translation of the schedule, which the trigger facility accepted, and
    whose timezone is the schedule's, UTC when the schedule has none. *)
Theorem registerSchedule_stores_translation (d : ScheduleDoc) σ σ' :
  registerSchedule d σ = (Normal tt, σ') →
  ∃ expression handle,
    toCronExpression d = Normal expression ∧
    cron_validate expression = true ∧
    jobs σ' !! _id d = Some handle ∧
    timers σ' !! handle =
      Some {| task_expression := expression;
              task_timezone := timezone_or_UTC d;
              task_scheduleId := _id d; task_running := true |} ∧
    length (timers σ') = S (length (timers σ)).
Proof.
  intros Hrun.
  destruct (registerSchedule_effect d σ _ σ' Hrun)
    as (_ & _ & expression & He & Hv & Hj & Ht & _).
  exists expression, (length (timers σ)). do 2 (split; [done|]).
  split; [rewrite Hj; apply lookup_insert_eq|]. rewrite Ht. split.
  - rewrite lookup_app_r by (rewrite timers_without_length; lia).
    by rewrite timers_without_length, Nat.sub_diag.
  - rewrite length_app, timers_without_length. simpl. lia.
Qed.

(** X7: a registration that completes writes to the store only to seed a
    missing nextExecutionAt: with nextExecutionAt set the store is left as
    it was; with it unset the schedule is persisted with the instant
    calculateNextExecution returned, every other field as passed in. *)
Theorem registerSchedule_seeds_nextExecutionAt (d : ScheduleDoc) σ σ' :
  registerSchedule d σ = (Normal tt, σ') →
  (is_Some (nextExecutionAt d) → world σ' = world σ) ∧
  (nextExecutionAt d = None →
     ∃ next, calculateNextExecution d (clock (world σ)) = Normal next ∧
       schedules (world σ') !! _id d = Some (set_nextExecutionAt (Some next) d) ∧
       ∀ id, id ≠ _id d →
         schedules (world σ') !! id = schedules (world σ) !! id).
Proof.
  intros Hrun.
  destruct (registerSchedule_effect d σ _ σ' Hrun)
    as (_ & Hw & expression & _ & _ & _ & _ & Hn).
  split; [done|]. intros Hnone. destruct (Hn Hnone) as (next & Hc & ->).
  exists next. split; [done|]. cbn. split; [apply lookup_insert_eq|].
  intros id Hne. by rewrite lookup_insert_ne.
Qed.

(** X8: a registration that raises leaves the schedule without a trigger,
    also when one was stored for it before the call: the old trigger is
    stopped and removed before the guarded block starts.  The entries of
    the other schedules stay. *)
Theorem registerSchedule_failure_drops_trigger (d : ScheduleDoc) σ e σ' :
  registerSchedule d σ = (Throw e, σ') →
  jobs σ' !! _id d = None ∧
  length (timers σ') = length (timers σ) ∧
  (∀ id, id ≠ _id d → jobs σ' !! id = jobs σ !! id) ∧
  (tracked σ → live_count (_id d) σ' = 0%nat).
Proof.
  intros Hrun.
  destruct (registerSchedule_effect d σ _ σ' Hrun) as (_ & _ & Hj & Ht).
  split; [rewrite Hj; apply lookup_delete_eq|].
  split; [rewrite Ht; apply timers_without_length|].
  split; [intros id Hne; by rewrite Hj, lookup_delete_ne|].
  intros Htr. apply live_count_zero.
  by destruct (tracked_unregistered σ σ' (_id d) Htr Hj Ht).
Qed.

(** [registerSchedule] keeps the trigger map and the running triggers
    describing each other. *)
Lemma consistent_registerSchedule (d : ScheduleDoc) σ r σ' :
  consistent σ → registerSchedule d σ = (r, σ') → consistent σ'.
Proof.
  intros [Htr Hst] Hrun.
  split; [by destruct (registerSchedule_run d σ r σ' Htr Hrun)|].
  destruct (registerSchedule_effect d σ r σ' Hrun) as (_ & _ & Hr).
  destruct r as [[]|e].
  - destruct Hr as (expression & _ & _ & Hj & Ht & _).
    set (σu := set_timers (timers_without (_id d) σ)
                 (set_jobs (delete (_id d) (jobs σ)) σ)).
    assert (stored_live σu) as Hstu
      by by apply (stored_live_unregistered σ σu (_id d)).
    apply (stored_live_registered σu σ' (_id d) expression (timezone_or_UTC d));
      [done| |done].
    cbn. rewrite timers_without_length, Hj. symmetry. apply insert_delete_eq.
  - destruct Hr as [Hj Ht]. by apply (stored_live_unregistered σ σ' (_id d)).
Qed.

(** ** executeScheduledFlow and the triggers *)

(** However a firing ends, it has either left the triggers alone or stopped
    and removed the trigger of the schedule it fired. *)
Lemma executeScheduledFlow_triggers id σ r σ' :
  executeScheduledFlow id σ = (r, σ') →
  initialized σ' = initialized σ ∧
  ((jobs σ' = jobs σ ∧ timers σ' = timers σ) ∨
   (jobs σ' = delete id (jobs σ) ∧ timers σ' = timers_without id σ)).
Proof.
  unfold executeScheduledFlow, run_with, try_catch. unfold_fire.
  run_body; intros [= <- <-]; cbn in *.
  all: try match goal with
           | H : (3 <=? plus_1 0) = true |- _ =>
               exfalso; vm_compute in H; discriminate H
           end.
  all: split; [first [reflexivity | assumption]|].
  all: first [ left; split; reflexivity | right; split; assumption ].
Qed.

Lemma consistent_executeScheduledFlow id σ r σ' :
  consistent σ → executeScheduledFlow id σ = (r, σ') → consistent σ'.
Proof.
  intros Hc Hrun.
  destruct (executeScheduledFlow_triggers id σ r σ' Hrun)
    as (_ & [[Hj Ht]|[Hj Ht]]).
  - by apply (consistent_same σ).
  - destruct Hc as [Htr Hst]. split.
    + by destruct (tracked_unregistered σ σ' id Htr Hj Ht).
    + by apply (stored_live_unregistered σ σ' id).
Qed.

(** X9: a firing never creates a trigger and never touches the trigger of
    another schedule: the number of triggers is unchanged, every other
    schedule keeps its entry, and the fired schedule's entry is either kept
    or removed.  From a consistent state the state stays consistent and the
    running triggers of the other schedules are the same. *)
Theorem executeScheduledFlow_only_own_trigger id σ r σ' :
  executeScheduledFlow id σ = (r, σ') →
  length (timers σ') = length (timers σ) ∧
  (∀ id', id' ≠ id → jobs σ' !! id' = jobs σ !! id') ∧
  (jobs σ' !! id = jobs σ !! id ∨ jobs σ' !! id = None) ∧
  (consistent σ →
     consistent σ' ∧
     ∀ id' h', id' ≠ id → live_trigger σ' id' h' ↔ live_trigger σ id' h').
Proof.
  intros Hrun.
  destruct (executeScheduledFlow_triggers id σ r σ' Hrun)
    as (_ & [[Hj Ht]|[Hj Ht]]).
  - rewrite Hj, Ht. split; [done|]. split; [done|]. split; [by left|].
    intros [Htr Hst]. split.
    + split; [by apply (tracked_same σ)|].
      intros i h Hl. rewrite Hj in Hl. destruct (Hst i h Hl) as (t & Hlt & Hr).
      exists t. by rewrite Ht.
    + intros id' h' _. unfold live_trigger. by rewrite Ht.
  - rewrite Hj, Ht. split; [apply timers_without_length|].
    split; [intros id' Hne; by rewrite lookup_delete_ne|].
    split; [right; apply lookup_delete_eq|].
    intros [Htr Hst]. split.
    + split; [by destruct (tracked_unregistered σ σ' id Htr Hj Ht)|].
      by apply (stored_live_unregistered σ σ' id).
    + intros id' h' Hne. by apply (timers_without_other σ σ' id).
Qed.

Lemma firing_skipped (scheduleId : string) σ :
  (schedules (world σ) !! scheduleId = None ∨
   ∃ s, schedules (world σ) !! scheduleId = Some s ∧ enabled s = false) →
  ∃ σ', executeScheduledFlow scheduleId σ = (Normal tt, σ') ∧
    world σ' = world σ ∧
    trace σ' = (trace σ ++ [QueryFindById scheduleId])%list ∧
    jobs σ' = jobs σ ∧ timers σ' = timers σ.
Proof.
  intros Hcase.
  unfold executeScheduledFlow, run_with, try_catch, fire_try.
  unfold bind at 1. unfold lift.
  destruct (findById_run scheduleId σ) as [E|(e & _ & E)]; cbv zeta in E;
    rewrite E.
  - destruct Hcase as [Hs|(s & Hs & Hen)]; rewrite Hs; cbn.
    + by eexists.
    + rewrite Hen. cbn. by eexists.
  - cbn. by eexists.
Qed.

(** X10: a firing for a schedule id the store does not hold, or for a
    schedule that is disabled, returns having done nothing but the read:
    the store is unchanged, nothing is saved or executed, and the trigger
    that fired is left running and stored. *)
Theorem absent_or_disabled_firing_skipped (scheduleId : string) σ :
  (schedules (world σ) !! scheduleId = None ∨
   ∃ s, schedules (world σ) !! scheduleId = Some s ∧ enabled s = false) →
  ∃ σ', executeScheduledFlow scheduleId σ = (Normal tt, σ') ∧
    world σ' = world σ ∧
    trace σ' = (trace σ ++ [QueryFindById scheduleId])%list ∧
    jobs σ' = jobs σ ∧ timers σ' = timers σ.
Proof. apply firing_skipped. Qed.

(** X11: a firing of an enabled, idle schedule that ended with a persisted
    success, for a schedule with no cap, a cap of 0 or a cap above the new
    count: the execution count is incremented as a JS number is, which is
    by exactly one for a count below 2^53 in absolute value,
    consecutiveFailures is reset to 0, the schedule is no longer marked
    running and stays enabled with its pausedReason as before, and the
    triggers are left alone. *)
Theorem successful_firing_below_cap id σ (s : Schedule) σ' (s' : Schedule) :
  schedules (world σ) !! id = Some s → answers σ = true →
  enabled s = true → isCurrentlyRunning s = false →
  (maxExecutions s = None ∨ maxExecutions s = Some 0 ∨
   ∃ m, maxExecutions s = Some m ∧ plus_1 (executionCount s) < m) →
  executeScheduledFlow id σ = (Normal tt, σ') →
  schedules (world σ') !! _id s = Some s' →
  lastExecutionStatus s' = Some "success" →
  executionCount s' = plus_1 (executionCount s) ∧
  (Z.abs (executionCount s) < 2 ^ 53 →
     executionCount s' = executionCount s + 1) ∧
  consecutiveFailures s' = Some 0 ∧
  isCurrentlyRunning s' = false ∧
  enabled s' = true ∧ pausedReason s' = pausedReason s ∧
  cadence s' = cadence s ∧
  jobs σ' = jobs σ ∧ timers σ' = timers σ.
Proof.
  intros Hs Hans Hen Hnr Hcap Hrun Hs' Hok.
  apply executeScheduledFlow_normal in Hrun
    as [[l Hn]|(e' & l1 & σ1 & l' & Ht & Hc)].
  - destruct (fire_try_normal _ _ _ _ Hn)
      as [(_ & Hnone & _)|[(s0 & Hs0 & [Hd|Hd] & _)|
          (s0 & hf & Hs0 & _ & _ & -> & Hid & Hp & Hst & Hec & Hcf & Hr & Hmx
             & Hcad & _ & Hbelow)]]; try congruence.
    assert (s0 = s) as -> by congruence.
    assert (s' = persisted hf) as -> by congruence.
    assert (max_reached hf = false) as Hnot.
    { unfold max_reached, truthy_num. rewrite Hmx, Hec.
      destruct Hcap as [->|[->|(m & -> & Hlt)]]; [done..|].
      apply andb_false_iff. right. lia. }
    destruct (Hbelow Hnot) as (Hen' & Hpr & Hj & Htm).
    split; [done|]. split; [intros Hsafe; by rewrite Hec, plus_1_exact|].
    by repeat split.
  - exfalso.
    destruct (fire_try_throw _ _ _ _ _ Ht)
      as [[_ ?]|(s0 & h & Hs0 & _ & _ & -> & Hid & _)]; [congruence|].
    assert (s0 = s) as -> by congruence.
    destruct (fire_catch_normal _ _ _ _ _ _ Hc)
      as (hf & _ & Hw & _ & Hst & _).
    rewrite Hw, Hid in Hs'. cbn in Hs'. rewrite lookup_insert_eq in Hs'.
    congruence.
Qed.

(** ** initialize and reloadSchedule *)

Lemma find_active_run σ :
  let σ0 := set_faults (tail (faults σ)) (set_trace (trace σ ++ [QueryFind]) σ) in
  find_active σ =
    (Normal (populate (world σ) <$>
               filter (fun s => active (clock (world σ)) s = true)
                      (snd <$> map_to_list (schedules (world σ)))), σ0) ∨
  ∃ e, find_active σ = (Throw e, σ0).
Proof.
  unfold find_active, new_Date, bind, emit, modify, gets. cbn.
  match goal with |- context [store_access ?s] =>
    destruct (store_access_cases s) as [E|(e & Hh & E)]; rewrite E end.
  - by left.
  - right. by exists e.
Qed.

Lemma register_each_initialized found σ r σ' :
  register_each found σ = (r, σ') → initialized σ' = initialized σ.
Proof.
  revert σ. induction found as [|d found IH]; intros σ; simpl.
  - by intros [= _ <-].
  - unfold bind at 1. destruct (populated_flowId d).
    + destruct (registerSchedule d σ) as [[[]|e] σ1] eqn:E.
      * intros Hrest. rewrite (IH _ Hrest).
        by destruct (registerSchedule_effect d σ _ σ1 E).
      * intros [= _ <-]. by destruct (registerSchedule_effect d σ _ σ1 E).
    + cbn. apply IH.
Qed.

(** The schedules that have a trigger after the loop of [initialize]. *)
Lemma register_each_jobs found σ σ' :
  register_each found σ = (Normal tt, σ') →
  ∀ id, is_Some (jobs σ' !! id) ↔
    is_Some (jobs σ !! id) ∨
    ∃ d : ScheduleDoc, d ∈ found ∧ is_Some (populated_flowId d) ∧ _id d = id.
Proof.
  revert σ. induction found as [|d found IH]; intros σ; simpl.
  - intros [= <-] id. split; [by left|]. intros [Hin|(d & Hd & _)]; [done|].
    by apply elem_of_nil in Hd.
  - intros ([] & σ1 & Hfirst & Hrest)%bind_normal id.
    rewrite (IH σ1 Hrest id). destruct (populated_flowId d) as [f|] eqn:Hflow.
    + destruct (registerSchedule_effect d σ _ σ1 Hfirst)
        as (_ & _ & expression & _ & _ & Hj & _).
      rewrite Hj, lookup_insert_is_Some. split.
      * intros [[Heq|[_ Hin]]|(d' & Hd' & Hf' & Hid')].
        -- right. exists d. split; [left|]. by rewrite Hflow.
        -- by left.
        -- right. exists d'. split; [by right|done].
      * intros [Hin|(d' & Hd' & Hf' & Hid')].
        -- destruct (decide (_id d = id)); [left; by left|left; by right].
        -- apply elem_of_cons in Hd' as [->|Hd'].
           ++ left. by left.
           ++ right. by exists d'.
    + assert (σ1 = σ) as -> by (unfold ret in Hfirst; congruence). split.
      * intros [Hin|(d' & Hd' & Hf' & Hid')]; [by left|].
        right. exists d'. split; [by right|done].
      * intros [Hin|(d' & Hd' & Hf' & Hid')]; [by left|].
        apply elem_of_cons in Hd' as [->|Hd'].
        -- rewrite Hflow in Hf'. by destruct Hf'.
        -- right. by exists d'.
Qed.

(** X12: a first [initialize] that completes sets the flag and gives a
    trigger to exactly the schedules of the store that are enabled, not
    expired at the time of the call, and whose flow exists, next to the
    schedules that had one already; a schedule that is disabled, expired or
    without flow gets none. *)
Theorem initialize_registers_active σ σ' :
  initialized σ = false →
  initialize σ = (Normal tt, σ') →
  initialized σ' = true ∧
  ∀ id, is_Some (jobs σ' !! id) ↔
    is_Some (jobs σ !! id) ∨
    ∃ key (s : Schedule),
      schedules (world σ) !! key = Some s ∧ _id s = id ∧
      active (clock (world σ)) s = true ∧
      is_Some (flows (world σ) !! flowId s).
Proof.
  intros Hinit Hrun. split; [by eapply initialize_sets_flag|].
  revert Hrun. unfold initialize, bind at 1, gets at 1. rewrite Hinit.
  rewrite try_catch_rethrow. unfold bind at 1.
  destruct (find_active_run σ) as [E|(e & E)]; cbv zeta in E; rewrite E;
    [|done].
  intros ([] & σ2 & Heach & [= <-])%bind_normal id.
  change (jobs (set_initialized true σ2)) with (jobs σ2).
  rewrite (register_each_jobs _ _ _ Heach id). cbn. split.
  - intros [H|(d & Hd & Hf & Hid)]; [by left|]. right.
    apply list_elem_of_fmap in Hd as (s & -> & Hs).
    apply list_elem_of_filter in Hs as [Hact Hs].
    apply list_elem_of_fmap in Hs as ([key s'] & -> & Hs).
    apply elem_of_map_to_list in Hs. by exists key, s'.
  - intros [H|(key & s & Hs & Hid & Hact & Hf)]; [by left|]. right.
    exists (populate (world σ) s). split; [|done].
    apply list_elem_of_fmap. exists s. split; [done|].
    apply list_elem_of_filter. split; [done|].
    apply list_elem_of_fmap. exists (key, s). split; [done|].
    by apply elem_of_map_to_list.
Qed.

(** X13: an [initialize] that raises (the query failed, or one registration
    did) leaves the flag unset, so that a later call starts over; the
    triggers registered before the failure stay. *)
Theorem initialize_failure_keeps_flag σ e σ' :
  initialize σ = (Throw e, σ') →
  initialized σ = false ∧ initialized σ' = false.
Proof.
  unfold initialize, bind at 1, gets at 1.
  destruct (initialized σ) eqn:Hinit; [done|].
  rewrite try_catch_rethrow. unfold bind at 1.
  destruct (find_active_run σ) as [E|(e' & E)]; cbv zeta in E; rewrite E.
  - unfold bind at 1.
    match goal with |- context [register_each ?l ?s] =>
      destruct (register_each l s) as [[[]|e'] σ2] eqn:Heach end; [done|].
    intros [= _ <-]. split; [done|].
    by rewrite (register_each_initialized _ _ _ _ Heach).
  - by intros [= _ <-].
Qed.

(** X14: after a [reloadSchedule] that completes, the schedule has a stored
    trigger exactly when its persisted document is enabled; neither its
    expiry nor the existence of its flow is looked at.  For a disabled
    schedule the store is left as it was. *)
Theorem reloadSchedule_follows_enabled (scheduleId : string) σ (s : Schedule) σ' :
  schedules (world σ) !! scheduleId = Some s → _id s = scheduleId →
  reloadSchedule scheduleId σ = (Normal tt, σ') →
  (is_Some (jobs σ' !! scheduleId) ↔ enabled s = true) ∧
  (enabled s = false → world σ' = world σ).
Proof.
  intros Hs Hid. unfold reloadSchedule, bind at 1.
  destruct (findById_run scheduleId σ) as [E|(e & _ & E)]; cbv zeta in E;
    rewrite E; [|done].
  rewrite Hs. cbn. destruct (enabled s) eqn:Hen.
  - intros Hrun.
    destruct (registerSchedule_effect _ _ _ _ Hrun)
      as (_ & _ & expression & _ & _ & Hj & _).
    cbn in Hj. rewrite Hid in Hj. rewrite Hj, lookup_insert_eq.
    split; [split; [done|by eexists]|done].
  - intros Hrun.
    match type of Hrun with unregisterSchedule ?i ?s0 = _ =>
      destruct (unregisterSchedule_run i s0) as (σu & Eu & Hj & _ & Hw & _) end.
    rewrite Eu in Hrun. injection Hrun as <-. rewrite Hj, lookup_delete_eq.
    split; [split; [by intros [? ?]|done]|by intros _].
Qed.

Lemma consistent_register_each found σ r σ' :
  consistent σ → register_each found σ = (r, σ') → consistent σ'.
Proof.
  revert σ. induction found as [|d found IH]; intros σ Hc; simpl.
  - by intros [= _ <-].
  - unfold bind at 1.
    destruct (populated_flowId d).
    + destruct (registerSchedule d σ) as [[[]|e] σ1] eqn:E.
      * apply IH. exact (consistent_registerSchedule d σ _ σ1 Hc E).
      * intros [= _ <-]. exact (consistent_registerSchedule d σ _ σ1 Hc E).
    + cbn. by apply IH.
Qed.

(** X15: every method of the service keeps the trigger map and the running
    triggers describing each other: each stored handle is a running trigger
    of its schedule, and each running trigger is the one stored for its
    schedule. *)
Theorem service_stays_consistent σ :
  consistent σ →
  (∀ d r σ', registerSchedule d σ = (r, σ') → consistent σ') ∧
  (∀ id r σ', unregisterSchedule id σ = (r, σ') → consistent σ') ∧
  (∀ id r σ', executeScheduledFlow id σ = (r, σ') → consistent σ') ∧
  (∀ r σ', initialize σ = (r, σ') → consistent σ') ∧
  (∀ id r σ', reloadSchedule id σ = (r, σ') → consistent σ').
Proof.
  intros Hc. split; [|split; [|split; [|split]]].
  - intros d r σ'. by apply consistent_registerSchedule.
  - intros id r σ'. by apply consistent_unregisterSchedule.
  - intros id r σ'. by apply consistent_executeScheduledFlow.
  - intros r σ'. unfold initialize, bind at 1, gets at 1.
    destruct (initialized σ); [by intros [= _ <-]|].
    rewrite try_catch_rethrow. unfold bind at 1.
    assert (consistent (set_faults (tail (faults σ))
              (set_trace (trace σ ++ [QueryFind]) σ))) as Hc0
      by by apply (consistent_same σ).
    destruct (find_active_run σ) as [E|(e' & E)]; cbv zeta in E; rewrite E;
      [|by intros [= _ <-]].
    unfold bind at 1.
    match goal with |- context [register_each ?l ?s] =>
      destruct (register_each l s) as [[[]|e'] σ2] eqn:Heach end.
    + intros [= _ <-]. apply (consistent_same σ2); [done..|].
      by apply (consistent_register_each _ _ _ _ Hc0 Heach).
    + intros [= _ <-]. by apply (consistent_register_each _ _ _ _ Hc0 Heach).
  - intros id r σ'. unfold reloadSchedule, bind at 1.
    assert (consistent (set_faults (tail (faults σ))
              (set_trace (trace σ ++ [QueryFindById id]) σ))) as Hc0
      by by apply (consistent_same σ).
    destruct (findById_run id σ) as [E|(e & _ & E)]; cbv zeta in E; rewrite E;
      [|by intros [= _ <-]].
    destruct (schedules (world σ) !! id) as [s|]; cbn; [|by intros [= _ <-]].
    destruct (enabled s).
    + by apply consistent_registerSchedule.
    + by apply consistent_unregisterSchedule.
Qed.

(** ** Consecutive failures *)

(** One firing of an enabled, idle schedule while the store answers and the
    flow executor raises: the call returns and the schedule is persisted
    with one more consecutive failure. *)
Lemma failing_firing_step id σ (s : Schedule) :
  schedules (world σ) !! id = Some s → _id s = id →
  enabled s = true → isCurrentlyRunning s = false →
  faults σ = [] →
  (∀ s now, ∃ next, calculateNextExecution s now = Normal next) →
  (∀ f v u t i w, ∃ e w', executeFlow f v u t i w = (Throw e, w')) →
  ∃ σ' (s' : Schedule),
    executeScheduledFlow id σ = (Normal tt, σ') ∧
    schedules (world σ') !! id = Some s' ∧ _id s' = id ∧
    faults σ' = [] ∧
    isCurrentlyRunning s' = false ∧
    lastExecutionStatus s' = Some "failed" ∧
    consecutiveFailures s' = Some (plus_1 (failures_or_0 s)) ∧
    executionCount s' = executionCount s ∧
    (plus_1 (failures_or_0 s) < 3 →
       enabled s' = true ∧ jobs σ' = jobs σ ∧ timers σ' = timers σ) ∧
    (3 ≤ plus_1 (failures_or_0 s) → enabled s' = false ∧ jobs σ' !! id = None).
Proof.
  intros Hs Hid Hen Hnr Hnil Htotal Hexec. subst id.
  unfold executeScheduledFlow, run_with, try_catch. unfold_fire.
  unfold failures_or_0.
  run_body.
  all: try store_never_fails Hnil.
  all: try match goal with
           | H : calculateNextExecution ?a ?b = Throw _ |- _ =>
               exfalso; destruct (Htotal a b); congruence
           end.
  all: try match goal with
           | H : executeFlow ?f ?v ?u ?t ?i ?w = (Normal _, _) |- _ =>
               exfalso; destruct (Hexec f v u t i w) as (? & ? & ?); congruence
           end.
  all: try discriminate Hs.
  all: injection Hs as ->.
  all: try match goal with
           | H : negb (enabled _) = true |- _ =>
               rewrite Hen in H; discriminate H
           | H : isCurrentlyRunning _ = true |- _ =>
               rewrite Hnr in H; discriminate H
           end.
  all: eexists _, _; (split; [reflexivity|]); cbn in *.
  all: rewrite ?Z.leb_le, ?Z.leb_gt in *.
  all: split; [apply lookup_insert_eq|]; cbn.
  all: split; [reflexivity|].
  all: split; [repeat match goal with
                      | Hf : faults _ = _ |- _ => rewrite Hf
                      end; by rewrite ?Hnil|].
  all: do 4 (split; [reflexivity|]).
  all: split; intros Hcmp; try lia.
  all: first [ split; [exact Hen|]; split; reflexivity
             | split; [reflexivity|];
               match goal with
               | Hj : jobs _ = delete _ _ |- _ =>
                   rewrite Hj; apply lookup_delete_eq
               end ].
Qed.

(** X16: three firings in a row of an enabled, idle schedule without
    earlier failures, while the store answers and the flow executor raises
    each time, all return; after the third the schedule is persisted
    disabled with three consecutive failures and its trigger entry is gone,
    and a fourth firing changes nothing in the store. *)
Theorem three_failures_pause id σ (s : Schedule) :
  schedules (world σ) !! id = Some s → _id s = id →
  enabled s = true → isCurrentlyRunning s = false →
  failures_or_0 s = 0 →
  faults σ = [] →
  (∀ s now, ∃ next, calculateNextExecution s now = Normal next) →
  (∀ f v u t i w, ∃ e w', executeFlow f v u t i w = (Throw e, w')) →
  ∃ σ1 σ2 σ3 σ4 (s3 : Schedule),
    executeScheduledFlow id σ = (Normal tt, σ1) ∧
    executeScheduledFlow id σ1 = (Normal tt, σ2) ∧
    executeScheduledFlow id σ2 = (Normal tt, σ3) ∧
    schedules (world σ3) !! id = Some s3 ∧
    enabled s3 = false ∧ consecutiveFailures s3 = Some 3 ∧
    executionCount s3 = executionCount s ∧
    jobs σ3 !! id = None ∧
    executeScheduledFlow id σ3 = (Normal tt, σ4) ∧ world σ4 = world σ3.
Proof.
  intros Hs Hid Hen Hnr Hcf Hnil Htotal Hexec.
  destruct (failing_firing_step id σ s Hs Hid Hen Hnr Hnil Htotal Hexec)
    as (σ1 & s1 & E1 & Hs1 & Hid1 & Hnil1 & Hnr1 & _ & Hcf1 & Hec1 & Hlt1 & _).
  rewrite Hcf in Hcf1, Hlt1. change (plus_1 0) with 1 in Hcf1, Hlt1.
  destruct Hlt1 as (Hen1 & _); [lia|].
  assert (failures_or_0 s1 = 1) as Hf1 by (unfold failures_or_0; by rewrite Hcf1).
  destruct (failing_firing_step id σ1 s1 Hs1 Hid1 Hen1 Hnr1 Hnil1 Htotal Hexec)
    as (σ2 & s2 & E2 & Hs2 & Hid2 & Hnil2 & Hnr2 & _ & Hcf2 & Hec2 & Hlt2 & _).
  rewrite Hf1 in Hcf2, Hlt2. change (plus_1 1) with 2 in Hcf2, Hlt2.
  destruct Hlt2 as (Hen2 & _); [lia|].
  assert (failures_or_0 s2 = 2) as Hf2 by (unfold failures_or_0; by rewrite Hcf2).
  destruct (failing_firing_step id σ2 s2 Hs2 Hid2 Hen2 Hnr2 Hnil2 Htotal Hexec)
    as (σ3 & s3 & E3 & Hs3 & Hid3 & Hnil3 & Hnr3 & _ & Hcf3 & Hec3 & _ & Hge3).
  rewrite Hf2 in Hcf3, Hge3. change (plus_1 2) with 3 in Hcf3, Hge3.
  destruct Hge3 as (Hen3 & Hj3); [lia|].
  destruct (firing_skipped id σ3) as (σ4 & E4 & Hw4 & _).
  { right. by exists s3. }
  exists σ1, σ2, σ3, σ4, s3. do 4 (split; [done|]). split; [done|].
  split; [done|]. split; [congruence|]. done.
Qed.

(** What a guarded block that ran the flow leaves in the document it
    saved: the instant of the run, and the next instant as computed from
    the document with the run already counted. *)
Lemma fire_try_success_times id σ l1 σ1 :
  fire_try id (None, σ) = (Normal tt, (l1, σ1)) →
  ∀ s : Schedule,
    schedules (world σ) !! id = Some s →
    enabled s = true → isCurrentlyRunning s = false →
    ∃ (hf : ScheduleDoc) (arg : Schedule) next,
      l1 = Some hf ∧
      lastExecutedAt hf = Some (clock (world σ1)) ∧
      nextExecutionAt hf = Some next ∧
      calculateNextExecution arg (clock (world σ1)) = Normal next ∧
      cadence arg = cadence s ∧
      executionCount arg = plus_1 (executionCount s) ∧
      lastExecutedAt arg = Some (clock (world σ1)) ∧
      consecutiveFailures arg = Some 0.
Proof.
  unfold_fire. run_body; try (by intros [=]); intros [= <- <-] s' Hs' Hen Hnr;
    cbn in *.
  all: try discriminate Hs'.
  all: injection Hs' as <-.
  all: rewrite ?negb_false_iff, ?negb_true_iff in *.
  all: try congruence.
  all: repeat match goal with H : world _ = ?w |- _ => is_var w; subst w end.
  all: eexists _, _, _; split; [reflexivity|]; cbn.
  all: split; [reflexivity|]; split; [reflexivity|].
  all: split; [eassumption|]; cbn; repeat split; reflexivity.
Qed.

(** X19: a firing of an enabled, idle schedule that ended with a persisted
    success stamps lastExecutedAt with the instant at which the flow
    returned and stores as nextExecutionAt what [calculateNextExecution]
    answered for the schedule with the run already counted (one more, for a
    count below 2^53 in absolute value) and the failure count reset; this
    holds also when the run reached the execution cap and paused the
    schedule. *)
Theorem successful_firing_times id σ (s : Schedule) σ' (s' : Schedule) :
  schedules (world σ) !! id = Some s → answers σ = true →
  enabled s = true → isCurrentlyRunning s = false →
  executeScheduledFlow id σ = (Normal tt, σ') →
  schedules (world σ') !! _id s = Some s' →
  lastExecutionStatus s' = Some "success" →
  lastExecutedAt s' = Some (clock (world σ')) ∧
  ∃ (arg : Schedule) next,
    nextExecutionAt s' = Some next ∧
    calculateNextExecution arg (clock (world σ')) = Normal next ∧
    cadence arg = cadence s ∧
    executionCount arg = plus_1 (executionCount s) ∧
    lastExecutedAt arg = Some (clock (world σ')) ∧
    consecutiveFailures arg = Some 0 ∧
    (Z.abs (executionCount s) < 2 ^ 53 →
       executionCount arg = executionCount s + 1).
Proof.
  intros Hs Hans Hen Hnr Hrun Hs' Hok.
  apply executeScheduledFlow_normal in Hrun
    as [[l Hn]|(e' & l1 & σ1 & l' & Ht & Hc)].
  - destruct (fire_try_success_times _ _ _ _ Hn s Hs Hen Hnr)
      as (hf & arg & next & -> & Hlast & Hnext & Hcalc & Hcad & Hec & Hla & Hcf).
    destruct (fire_try_normal _ _ _ _ Hn)
      as [(Hl & _)|[(s0 & Hs0 & [Hd|Hd] & _)|
          (s0 & hf' & Hs0 & _ & _ & Hl & _ & Hp & _)]]; try congruence.
    assert (s0 = s) as -> by congruence.
    assert (hf' = hf) as -> by congruence.
    assert (s' = persisted hf) as -> by congruence.
    split; [exact Hlast|]. exists arg, next. do 5 (split; [done|]).
    split; [done|]. intros Hsafe. by rewrite Hec, plus_1_exact.
  - exfalso.
    destruct (fire_try_throw _ _ _ _ _ Ht)
      as [[_ ?]|(s0 & h & Hs0 & _ & _ & -> & Hid & _)]; [congruence|].
    assert (s0 = s) as -> by congruence.
    destruct (fire_catch_normal _ _ _ _ _ _ Hc)
      as (hf & _ & Hw & _ & Hst & _).
    rewrite Hw, Hid in Hs'. cbn in Hs'. rewrite lookup_insert_eq in Hs'.
    congruence.
Qed.

(** X20: from a state in which every running trigger is stored, a
    [reloadSchedule] of an enabled schedule that completes leaves exactly
    one running trigger for it, stored under a handle no earlier trigger
    had; a trigger it had before is stopped, and no schedule has two
    running triggers. *)
Theorem reloadSchedule_one_trigger (scheduleId : string) σ (s : Schedule) σ' :
  tracked σ →
  schedules (world σ) !! scheduleId = Some s → _id s = scheduleId →
  enabled s = true →
  reloadSchedule scheduleId σ = (Normal tt, σ') →
  live_count scheduleId σ' = 1%nat ∧
  jobs σ' !! scheduleId = Some (length (timers σ)) ∧
  (∀ h, (h < length (timers σ))%nat → ¬ live_trigger σ' scheduleId h) ∧
  ∀ id, (live_count id σ' ≤ 1)%nat.
Proof.
  intros Htr Hs Hid Hen. unfold reloadSchedule, bind at 1.
  assert (tracked (set_faults (tail (faults σ))
            (set_trace (trace σ ++ [QueryFindById scheduleId]) σ))) as Htr0
    by by apply (tracked_same σ).
  destruct (findById_run scheduleId σ) as [E|(e & _ & E)]; cbv zeta in E;
    rewrite E; [|done].
  rewrite Hs. cbn. rewrite Hen. intros Hrun.
  destruct (registerSchedule_run _ _ _ _ Htr0 Hrun) as [Htr' Hr].
  destruct (Hr eq_refl) as (Hj & Hl & Hlen). cbn in Hj, Hl, Hlen.
  rewrite Hid in Hj, Hl.
  split; [by eapply live_count_one|]. split; [exact Hj|].
  split; [|intros id; by apply live_count_le_1].
  intros h Hlt (t & Hlk & Hr' & Hi).
  pose proof (Htr' _ _ Hlk Hr') as Hin. rewrite Hi, Hj in Hin.
  injection Hin. lia.
Qed.

Lemma live_count_app_stopped id σ σ' l t :
  timers σ' = (l ++ [stopped t])%list → timers σ = l →
  live_count id σ' = live_count id σ.
Proof.
  intros H' H. unfold live_count. rewrite H', H, filter_app, length_app.
  rewrite filter_cons_False; [simpl; lia|].
  unfold is_live, stopped. simpl. done.
Qed.

(** X21: a registration that completes, followed by [unregisterSchedule]
    of the same schedule, leaves the stored handles exactly as
    [unregisterSchedule] alone would have, and as many running triggers for
    every schedule: the trigger just created is stopped and kept stopped at
    the end of the trigger list. *)
Theorem register_then_unregister (d : ScheduleDoc) σ σ1 σ2 :
  registerSchedule d σ = (Normal tt, σ1) →
  unregisterSchedule (_id d) σ1 = (Normal tt, σ2) →
  ∃ σu, unregisterSchedule (_id d) σ = (Normal tt, σu) ∧
    jobs σ2 = jobs σu ∧
    length (timers σ2) = S (length (timers σu)) ∧
    runs_at σ2 (length (timers σu)) = false ∧
    ∀ id, live_count id σ2 = live_count id σu.
Proof.
  intros Hreg Hun.
  destruct (registerSchedule_effect _ _ _ _ Hreg)
    as (_ & _ & expression & _ & _ & Hj1 & Ht1 & _).
  destruct (unregisterSchedule_run (_id d) σ1) as (σ2' & E2 & Hj2 & Ht2 & _).
  rewrite E2 in Hun. injection Hun as ->.
  destruct (unregisterSchedule_run (_id d) σ) as (σu & Eu & Hju & Htu & _).
  exists σu. split; [exact Eu|].
  assert (timers σ2 = (timers σu ++
    [stopped {| task_expression := expression;
                task_timezone := timezone_or_UTC d;
                task_scheduleId := _id d; task_running := true |}])%list) as Ht.
  { rewrite Ht2. unfold timers_without at 1. rewrite Hj1, lookup_insert_eq, Ht1.
    rewrite Htu, <- (timers_without_length (_id d) σ).
    rewrite alter_app_r_alt by lia. by rewrite Nat.sub_diag. }
  split; [by rewrite Hj2, Hj1, Hju, delete_insert_eq|].
  split; [rewrite Ht, length_app; simpl; lia|].
  split.
  - unfold runs_at. rewrite Ht, lookup_app_r, Nat.sub_diag by lia. done.
  - intros id. by eapply live_count_app_stopped.
Qed.

End Steps.

Lemma unrecognized_schedule_rejected_witness :
  let yearly : ScheduleDoc :=
    populate (Sample.store_of Sample.first_of_month true)
             (Sample.typed "yearly" "" Sample.first_of_month) in
  let weeks : ScheduleDoc :=
    populate (Sample.store_of Sample.first_of_month true)
             (Sample.typed "interval" "weeks" Sample.first_of_month) in
  toCronExpression yearly = Throw (Err "Unknown schedule type: yearly") ∧
  toCronExpression weeks = Throw (Err "Unknown interval unit: weeks").
Proof.
  intros yearly weeks. split.
  - apply (unrecognized_schedule_rejected Sample.calc Sample.accept yearly).
    reflexivity.
  - apply (unrecognized_schedule_rejected Sample.calc Sample.accept weeks);
      reflexivity.
Defined.

Lemma reloadSchedule_missing_witness :
  ∃ e σ',
    reloadSchedule Sample.calc Sample.accept "gone"
      (Sample.registered "gone" (Sample.store_of Sample.first_of_month true) [])
    = (Throw e, σ') ∧ jobs σ' !! "gone" = Some 0%nat.
Proof.
  destruct (reloadSchedule_missing Sample.calc Sample.accept "gone"
    (Sample.registered "gone" (Sample.store_of Sample.first_of_month true) []))
    as (e & σ' & E & _ & Hj & _).
  - reflexivity.
  - exists e, σ'. split; [exact E|]. rewrite Hj. reflexivity.
Defined.

Lemma initialize_idempotent_witness :
  let σ := Sample.fresh (Sample.store_of Sample.first_of_month true) [] in
  ∃ σ1, initialize Sample.calc Sample.accept σ = (Normal tt, σ1) ∧
        initialize Sample.calc Sample.accept σ1 = (Normal tt, σ1) ∧
        jobs σ1 !! "s1" = Some 0%nat.
Proof.
  intros σ. eexists. split; [vm_compute; reflexivity|]. split.
  - apply (initialize_idempotent Sample.calc Sample.accept σ).
    vm_compute. reflexivity.
  - reflexivity.
Defined.



(** C1: a firing during a store outage.  The store answers the read and
    the save that marks the schedule running, the flow runs, and then the
    store fails: the save of the success raises, the failure handler's own
    save raises too, and that second error leaves [executeScheduledFlow].
    The schedule stays persisted as running, with no outcome recorded. *)
Theorem store_outage_escapes :
  let σ := Sample.registered "s1"
             (Sample.store_of Sample.first_of_month true)
             [None; None; Some (Err "store unreachable");
              Some (Err "store unreachable")] in
  ∃ σ' s',
    executeScheduledFlow Sample.calc Sample.resolve Sample.exec_ok "s1" σ
      = (Throw (Err "store unreachable"), σ') ∧
    schedules (world σ') !! "s1" = Some s' ∧
    isCurrentlyRunning s' = true ∧ lastExecutionStatus s' = None.
Proof.
  intros σ. eexists _, _. split; [vm_compute; reflexivity|].
  split; [vm_compute; reflexivity|]. split; reflexivity.
Qed.

(** C2, as stated, fails: an enabled schedule whose flow is gone is not left
    untouched by a firing; it is persisted as failed with one consecutive
    failure. *)
Lemma missing_flow_changes_state :
  let σ := Sample.fresh (Sample.store_of Sample.first_of_month false) [] in
  schedules (world σ) !! "s1" = Some Sample.first_of_month ∧
  enabled Sample.first_of_month = true ∧
  flows (world σ) !! flowId Sample.first_of_month = None ∧
  ∃ σ' s',
    executeScheduledFlow Sample.calc Sample.resolve Sample.exec_ok "s1" σ
      = (Normal tt, σ') ∧
    schedules (world σ') !! "s1" = Some s' ∧
    lastExecutionStatus s' = Some "failed" ∧
    consecutiveFailures s' = Some 1 ∧
    lastExecutionStatus Sample.first_of_month = None ∧
    consecutiveFailures Sample.first_of_month = Some 0.
Proof.
  intros σ. do 3 (split; [reflexivity|]).
  eexists _, _. split; [vm_compute; reflexivity|].
  split; [vm_compute; reflexivity|]. repeat split.
Qed.

Lemma missing_flow_is_a_failure_witness :
  let σ := Sample.fresh (Sample.store_of Sample.first_of_month false) [] in
  ∃ σ1 σ' s',
    fire_try Sample.calc Sample.resolve Sample.exec_ok "s1" (None, σ) =
      (Throw (Err "Flow not found"),
       (Some (assign (set_isCurrentlyRunning true)
                (populate (world σ) Sample.first_of_month)), σ1)) ∧
    executeScheduledFlow Sample.calc Sample.resolve Sample.exec_ok "s1" σ
      = (Normal tt, σ') ∧
    schedules (world σ') !! "s1" = Some s' ∧
    lastExecutionStatus s' = Some "failed" ∧
    consecutiveFailures s' = Some 1.
Proof.
  intros σ.
  set (σ' := snd (executeScheduledFlow Sample.calc Sample.resolve
                    Sample.exec_ok "s1" σ)).
  assert (executeScheduledFlow Sample.calc Sample.resolve Sample.exec_ok
            "s1" σ = (Normal tt, σ')) as Hrun by (vm_compute; reflexivity).
  destruct (missing_flow_is_a_failure Sample.calc Sample.resolve
    Sample.exec_ok "s1" σ Sample.first_of_month
    eq_refl eq_refl eq_refl eq_refl eq_refl eq_refl)
    as (σ1 & Htry & _ & _ & Hfail).
  destruct (Hfail σ' Hrun) as (s' & Hs' & Hst & Hcf & _).
  exists σ1, σ', s'. split; [exact Htry|]. split; [exact Hrun|].
  split; [exact Hs'|]. split; [exact Hst|]. exact Hcf.
Defined.

Lemma running_schedule_skipped_witness :
  let busy := set_isCurrentlyRunning true Sample.first_of_month in
  let σ := Sample.registered "s1" (Sample.store_of busy true) [] in
  ∃ σ',
    executeScheduledFlow Sample.calc Sample.resolve Sample.exec_ok "s1" σ
      = (Normal tt, σ') ∧
    world σ' = world σ ∧ jobs σ' = jobs σ.
Proof.
  intros busy σ.
  destruct (running_schedule_skipped Sample.calc Sample.resolve
    Sample.exec_ok "s1" σ busy eq_refl eq_refl)
    as (σ' & Hrun & Hw & _ & Hj & _).
  exists σ'. split; [exact Hrun|]. split; [exact Hw|exact Hj].
Defined.



(** C5, as stated, fails: for a schedule whose maxExecutions is 0 a
    successful firing brings the count to 1, which is at or above the cap,
    and yet the schedule is persisted enabled, without pausedReason, and
    its trigger is still stored and running. *)
Lemma zero_cap_never_pauses :
  let uncapped := Sample.capped 0 Sample.first_of_month in
  let σ := Sample.registered "s1" (Sample.store_of uncapped true) [] in
  maxExecutions uncapped = Some 0 ∧
  ∃ σ' s',
    executeScheduledFlow Sample.calc Sample.resolve Sample.exec_ok "s1" σ
      = (Normal tt, σ') ∧
    schedules (world σ') !! "s1" = Some s' ∧
    lastExecutionStatus s' = Some "success" ∧
    executionCount s' = 1 ∧ maxExecutions s' = Some 0 ∧
    enabled s' = true ∧ pausedReason s' = None ∧
    jobs σ' !! "s1" = Some 0%nat ∧ live_count "s1" σ' = 1%nat.
Proof.
  intros uncapped σ. split; [reflexivity|].
  eexists _, _. split; [vm_compute; reflexivity|].
  split; [vm_compute; reflexivity|]. repeat split.
Qed.

Lemma max_executions_pauses_witness :
  let once := Sample.capped 1 Sample.first_of_month in
  let σ := Sample.registered "s1" (Sample.store_of once true) [] in
  ∃ σ' s',
    executeScheduledFlow Sample.calc Sample.resolve Sample.exec_ok "s1" σ
      = (Normal tt, σ') ∧
    schedules (world σ') !! "s1" = Some s' ∧
    executionCount s' = 1 ∧ enabled s' = false ∧
    pausedReason s' = Some "Max executions reached" ∧
    jobs σ' !! "s1" = None.
Proof.
  intros once σ.
  set (σ' := snd (executeScheduledFlow Sample.calc Sample.resolve
                    Sample.exec_ok "s1" σ)).
  set (s' := default once (schedules (world σ') !! "s1")).
  assert (executeScheduledFlow Sample.calc Sample.resolve Sample.exec_ok
            "s1" σ = (Normal tt, σ')) as Hrun by (vm_compute; reflexivity).
  assert (schedules (world σ') !! "s1" = Some s') as Hs'
    by (vm_compute; reflexivity).
  destruct (max_executions_pauses Sample.calc Sample.resolve Sample.exec_ok
    "s1" σ once 1 σ' s') as (Hec & Hen & Hpr & Hj & _);
    [reflexivity|reflexivity|reflexivity|reflexivity|reflexivity|lia|
     vm_compute; discriminate|exact Hrun|exact Hs'|vm_compute; reflexivity|].
  exists σ', s'. split; [exact Hrun|]. split; [exact Hs'|].
  split; [exact Hec|]. split; [exact Hen|]. split; [exact Hpr|exact Hj].
Defined.

Lemma registerSchedule_twice_witness :
  let σ := Sample.fresh (Sample.store_of Sample.first_of_month true) [] in
  let d := populate (world σ) Sample.first_of_month in
  ∃ σ1 σ2,
    registerSchedule Sample.calc Sample.accept d σ = (Normal tt, σ1) ∧
    registerSchedule Sample.calc Sample.accept d σ1 = (Normal tt, σ2) ∧
    live_count "s1" σ2 = 1%nat ∧ length (timers σ2) = 2%nat.
Proof.
  intros σ d.
  set (σ1 := snd (registerSchedule Sample.calc Sample.accept d σ)).
  set (σ2 := snd (registerSchedule Sample.calc Sample.accept d σ1)).
  assert (registerSchedule Sample.calc Sample.accept d σ = (Normal tt, σ1))
    as H1 by (vm_compute; reflexivity).
  assert (registerSchedule Sample.calc Sample.accept d σ1 = (Normal tt, σ2))
    as H2 by (vm_compute; reflexivity).
  assert (tracked σ) as Htr by (intros h t Hl; discriminate Hl).
  destruct (registerSchedule_twice Sample.calc Sample.accept d d σ σ1 σ2
    Htr eq_refl H1 H2) as (Hone & _).
  exists σ1, σ2. split; [exact H1|]. split; [exact H2|].
  split; [exact Hone|]. vm_compute. reflexivity.
Defined.

(** * Further properties of the cron translation *)

Lemma split_pieces sep h m rest :
  Forall (fun c => c ≠ sep) (String.list_ascii_of_string h) →
  Forall (fun c => c ≠ sep) (String.list_ascii_of_string m) →
  split sep (h +:+ String sep (m +:+ String sep rest)) =
    h :: m :: split sep rest.
Proof.
  intros Hh Hm.
  assert (split sep (m +:+ String sep rest) = m :: split sep rest) as Hsm.
  { clear Hh. induction m as [|c m IH]; simpl.
    - by rewrite Ascii.eqb_refl.
    - simpl in Hm. apply Forall_cons in Hm as [Hc Hm].
      destruct (Ascii.eqb_spec c sep) as [->|_]; [done|]. by rewrite IH. }
  induction h as [|c h IH]; simpl.
  - rewrite Ascii.eqb_refl. by rewrite Hsm.
  - simpl in Hh. apply Forall_cons in Hh as [Hc Hh].
    destruct (Ascii.eqb_spec c sep) as [->|_]; [done|]. by rewrite IH.
Qed.

(** X1: for a time written hour:minute, the daily and weekly translations
    paste the minute and then the hour as they are written; the weekly one
    ends with the weekday numbers joined by commas. *)
Theorem toCronExpression_time_of_day (s : Schedule) h m :
  Forall (fun c => c ≠ ":"%char) (String.list_ascii_of_string h) →
  Forall (fun c => c ≠ ":"%char) (String.list_ascii_of_string m) →
  time s = Some (h +:+ ":" +:+ m) →
  (scheduleType s = "daily" →
     toCronExpression s = Normal (m +:+ " " +:+ h +:+ " * * *")) ∧
  (scheduleType s = "weekly" → ∀ days, daysOfWeek s = Some days →
     toCronExpression s =
       Normal (m +:+ " " +:+ h +:+ " * * " +:+ join "," (pretty <$> days))).
Proof.
  intros Hh Hm Htime.
  assert (split ":"%char (h +:+ ":" +:+ m) = [h; m]) as Hsplit.
  { change (":" +:+ m) with (String ":" m). by apply split_two. }
  split.
  - intros Ht. unfold toCronExpression. rewrite Ht, Htime. simpl.
    by rewrite Hsplit.
  - intros Ht days Hd. unfold toCronExpression. rewrite Ht, Htime, Hd. simpl.
    by rewrite Hsplit.
Qed.

Lemma toCronExpression_time_of_day_witness :
  toCronExpression
    (Sample.weekly "s2" "09:30" [1; 3; 5]) = Normal "30 09 * * 1,3,5".
Proof.
  destruct (toCronExpression_time_of_day
              (Sample.weekly "s2" "09:30" [1; 3; 5]) "09" "30") as [_ Hweekly];
    [by repeat constructor..|reflexivity|].
  exact (Hweekly eq_refl _ eq_refl).
Defined.

(** X2: whatever follows a second colon in the time is dropped: a time
    written hour:minute:rest is translated as hour:minute is. *)
Theorem toCronExpression_drops_seconds (s : Schedule) h m rest :
  Forall (fun c => c ≠ ":"%char) (String.list_ascii_of_string h) →
  Forall (fun c => c ≠ ":"%char) (String.list_ascii_of_string m) →
  time s = Some (h +:+ ":" +:+ m +:+ ":" +:+ rest) →
  (scheduleType s = "daily" →
     toCronExpression s = Normal (m +:+ " " +:+ h +:+ " * * *")) ∧
  (scheduleType s = "weekly" → ∀ days, daysOfWeek s = Some days →
     toCronExpression s =
       Normal (m +:+ " " +:+ h +:+ " * * " +:+ join "," (pretty <$> days))) ∧
  (scheduleType s = "monthly" →
     toCronExpression s =
       Normal (m +:+ " " +:+ h +:+ " " +:+ num_to_string (dayOfMonth s)
               +:+ " * *")).
Proof.
  intros Hh Hm Htime.
  assert (split ":"%char (h +:+ ":" +:+ m +:+ ":" +:+ rest)
            = h :: m :: split ":"%char rest) as Hsplit.
  { change (":" +:+ m +:+ ":" +:+ rest) with (String ":" (m +:+ String ":" rest)).
    by apply split_pieces. }
  split; [|split].
  - intros Ht. unfold toCronExpression. rewrite Ht, Htime. simpl.
    by rewrite Hsplit.
  - intros Ht days Hd. unfold toCronExpression. rewrite Ht, Htime, Hd. simpl.
    by rewrite Hsplit.
  - intros Ht. unfold toCronExpression. rewrite Ht, Htime. simpl.
    by rewrite Hsplit.
Qed.

Lemma toCronExpression_drops_seconds_witness :
  toCronExpression (Sample.monthly "s1" "00:05:59" 1) = Normal "05 00 1 * *".
Proof.
  destruct (toCronExpression_drops_seconds
              (Sample.monthly "s1" "00:05:59" 1) "00" "05" "59")
    as (_ & _ & Hmonthly); [by repeat constructor..|reflexivity|].
  exact (Hmonthly eq_refl).
Defined.

(** X3: a time without a colon is not rejected: it is taken whole as the
    hour, and the minute field of the expression is the text undefined. *)
Theorem toCronExpression_time_without_colon (s : Schedule) t :
  Forall (fun c => c ≠ ":"%char) (String.list_ascii_of_string t) →
  time s = Some t →
  (scheduleType s = "daily" →
     toCronExpression s = Normal ("undefined " +:+ t +:+ " * * *")) ∧
  (scheduleType s = "weekly" → ∀ days, daysOfWeek s = Some days →
     toCronExpression s =
       Normal ("undefined " +:+ t +:+ " * * " +:+ join "," (pretty <$> days))) ∧
  (scheduleType s = "monthly" →
     toCronExpression s =
       Normal ("undefined " +:+ t +:+ " " +:+ num_to_string (dayOfMonth s)
               +:+ " * *")).
Proof.
  intros Hfree Htime.
  pose proof (split_no_sep ":"%char t Hfree) as Hsplit.
  split; [|split].
  - intros Ht. unfold toCronExpression. rewrite Ht, Htime. simpl.
    by rewrite Hsplit.
  - intros Ht days Hd. unfold toCronExpression. rewrite Ht, Htime, Hd. simpl.
    by rewrite Hsplit.
  - intros Ht. unfold toCronExpression. rewrite Ht, Htime. simpl.
    by rewrite Hsplit.
Qed.

Lemma toCronExpression_time_without_colon_witness :
  toCronExpression (Sample.monthly "s1" "9" 1) = Normal "undefined 9 1 * *".
Proof.
  destruct (toCronExpression_time_without_colon
              (Sample.monthly "s1" "9" 1) "9") as (_ & _ & Hmonthly);
    [by repeat constructor|reflexivity|].
  exact (Hmonthly eq_refl).
Defined.

(** * getStats *)

Lemma runs_at_live σ h :
  runs_at σ h = true ↔ ∃ id, live_trigger σ id h.
Proof.
  unfold runs_at, live_trigger. split.
  - destruct (timers σ !! h) as [t|]; [|done]. intros Hr.
    by exists (task_scheduleId t), t.
  - intros (id & t & -> & Hr & _). done.
Qed.

(** In a consistent state the stored handles are the handles of the running
    triggers, each once. *)
Lemma stored_handles_running σ :
  consistent σ → (map_to_list (jobs σ)).*2 ≡ₚ running_handles σ.
Proof.
  intros [Htr Hst]. apply NoDup_Permutation.
  - apply NoDup_fmap_2_strong; [|apply NoDup_map_to_list].
    intros [id1 h1] [id2 h2] H1%elem_of_map_to_list H2%elem_of_map_to_list.
    simpl. intros <-.
    destruct (Hst id1 h1 H1) as (t1 & Hl1 & _ & Hid1).
    destruct (Hst id2 h1 H2) as (t2 & Hl2 & _ & Hid2).
    congruence.
  - apply NoDup_filter, NoDup_seq.
  - intros h. unfold running_handles.
    rewrite list_elem_of_filter, elem_of_seq, list_elem_of_fmap. split.
    + intros ([id h'] & -> & Hin%elem_of_map_to_list). simpl.
      pose proof (Hst id h' Hin) as Hlive.
      split; [apply runs_at_live; by exists id|].
      destruct Hlive as (t & Hl & _). apply lookup_lt_Some in Hl. lia.
    + intros [(id & t & Hl & Hr & Hid)%runs_at_live _].
      exists (id, h). split; [done|]. apply elem_of_map_to_list.
      rewrite <- Hid. by apply Htr.
Qed.

(** X17: in a consistent state [getStats] reports the running triggers:
    the ids it lists are exactly the schedule ids that have a running
    trigger, no id is listed twice, and the total is both the number of ids
    listed and the number of triggers that still run. *)
Theorem getStats_reports_running σ :
  consistent σ →
  (∀ id, id ∈ snd (getStats σ) ↔ ∃ h, live_trigger σ id h) ∧
  NoDup (snd (getStats σ)) ∧
  fst (getStats σ) = length (snd (getStats σ)) ∧
  fst (getStats σ) = length (running_handles σ).
Proof.
  intros Hc. pose proof Hc as [Htr Hst]. unfold getStats. simpl.
  split; [|split; [|split]].
  - intros id. rewrite list_elem_of_fmap. split.
    + intros ([id' h] & -> & Hin%elem_of_map_to_list). simpl.
      exists h. by apply Hst.
    + intros (h & t & Hl & Hr & Hid). exists (id, h). split; [done|].
      apply elem_of_map_to_list. rewrite <- Hid. by apply Htr.
  - apply NoDup_fst_map_to_list.
  - by rewrite length_fmap, length_map_to_list.
  - rewrite <- (Permutation_length (stored_handles_running σ Hc)).
    by rewrite length_fmap, length_map_to_list.
Qed.

(** * Samples for the further properties *)

Lemma sample_registered_consistent id w script :
  consistent (Sample.registered id w script).
Proof.
  split.
  - intros h t Hl Hr. destruct h as [|h]; simpl in Hl.
    + injection Hl as <-. simpl. apply lookup_singleton_eq.
    + by destruct h.
  - intros id' h Hl. simpl in Hl.
    apply lookup_singleton_Some in Hl as [<- <-]. by eexists.
Qed.

Lemma getStats_reports_running_witness :
  let σ := Sample.registered "s1"
             (Sample.store_of Sample.first_of_month true) [] in
  getStats σ = (1%nat, ["s1"]) ∧ length (running_handles σ) = 1%nat.
Proof.
  intros σ.
  destruct (getStats_reports_running σ) as (_ & _ & _ & Hrun).
  - apply sample_registered_consistent.
  - split; [reflexivity|]. rewrite <- Hrun. reflexivity.
Defined.

Lemma unregister_again_changes_nothing_witness :
  let σ := Sample.registered "s1"
             (Sample.store_of Sample.first_of_month true) [] in
  ∃ σ1, unregisterSchedule "s1" σ = (Normal tt, σ1) ∧
        unregisterSchedule "s1" σ1 = (Normal tt, σ1) ∧
        jobs σ1 !! "s1" = None.
Proof.
  intros σ. set (σ1 := snd (unregisterSchedule "s1" σ)).
  assert (unregisterSchedule "s1" σ = (Normal tt, σ1)) as H1
    by (vm_compute; reflexivity).
  destruct (unregister_again_changes_nothing "s1" σ _ σ1 H1) as [_ H2].
  exists σ1. split; [exact H1|]. split; [exact H2|]. vm_compute. reflexivity.
Defined.

Lemma unregisterSchedule_only_own_witness :
  let σ := Sample.registered "s1"
             (Sample.store_of Sample.first_of_month true) [] in
  ∃ σ1, unregisterSchedule "s1" σ = (Normal tt, σ1) ∧
        live_count "s1" σ1 = 0%nat ∧ consistent σ1.
Proof.
  intros σ. set (σ1 := snd (unregisterSchedule "s1" σ)).
  assert (unregisterSchedule "s1" σ = (Normal tt, σ1)) as H1
    by (vm_compute; reflexivity).
  destruct (unregisterSchedule_only_own "s1" σ _ σ1
              (sample_registered_consistent _ _ _) H1) as (Hc & _ & Hz & _).
  exists σ1. split; [exact H1|]. split; [exact Hz|exact Hc].
Defined.

Lemma registerSchedule_stores_translation_witness :
  let σ := Sample.fresh (Sample.store_of Sample.first_of_month true) [] in
  let d := populate (world σ) Sample.first_of_month in
  ∃ σ', registerSchedule Sample.calc Sample.accept d σ = (Normal tt, σ') ∧
    jobs σ' !! "s1" = Some 0%nat ∧
    timers σ' !! 0%nat =
      Some {| task_expression := "05 00 1 * *"; task_timezone := "UTC";
              task_scheduleId := "s1"; task_running := true |}.
Proof.
  intros σ d.
  set (σ' := snd (registerSchedule Sample.calc Sample.accept d σ)).
  assert (registerSchedule Sample.calc Sample.accept d σ = (Normal tt, σ'))
    as Hrun by (vm_compute; reflexivity).
  destruct (registerSchedule_stores_translation Sample.calc Sample.accept
              d σ σ' Hrun) as (expression & handle & _).
  exists σ'. split; [exact Hrun|]. split; vm_compute; reflexivity.
Defined.

Lemma registerSchedule_seeds_nextExecutionAt_witness :
  let σ := Sample.fresh (Sample.store_of Sample.first_of_month true) [] in
  let d := populate (world σ) Sample.first_of_month in
  ∃ σ', registerSchedule Sample.calc Sample.accept d σ = (Normal tt, σ') ∧
    schedules (world σ') !! "s1" =
      Some (set_nextExecutionAt (Some 1060) Sample.first_of_month).
Proof.
  intros σ d.
  set (σ' := snd (registerSchedule Sample.calc Sample.accept d σ)).
  assert (registerSchedule Sample.calc Sample.accept d σ = (Normal tt, σ'))
    as Hrun by (vm_compute; reflexivity).
  destruct (registerSchedule_seeds_nextExecutionAt Sample.calc Sample.accept
              d σ σ' Hrun) as [_ Hseed].
  destruct (Hseed eq_refl) as (next & Hnext & Hs & _).
  injection Hnext as <-.
  exists σ'. split; [exact Hrun|]. exact Hs.
Defined.

Lemma registerSchedule_failure_drops_trigger_witness :
  let σ := Sample.registered "s1"
             (Sample.store_of Sample.first_of_month true) [] in
  let d := populate (world σ) Sample.first_of_month in
  ∃ e σ', registerSchedule Sample.calc Sample.reject d σ = (Throw e, σ') ∧
    jobs σ !! "s1" = Some 0%nat ∧ jobs σ' !! "s1" = None.
Proof.
  intros σ d.
  set (σ' := snd (registerSchedule Sample.calc Sample.reject d σ)).
  assert (registerSchedule Sample.calc Sample.reject d σ
            = (Throw (Err "05 00 1 * * is a invalid expression"), σ'))
    as Hrun by (vm_compute; reflexivity).
  destruct (registerSchedule_failure_drops_trigger Sample.calc Sample.reject
              d σ _ σ' Hrun) as (Hnone & _).
  eexists _, σ'. split; [exact Hrun|]. split; [reflexivity|exact Hnone].
Defined.

Lemma executeScheduledFlow_only_own_trigger_witness :
  let σ := Sample.registered "s1"
             (Sample.store_of Sample.first_of_month true) [] in
  ∃ σ',
    executeScheduledFlow Sample.calc Sample.resolve Sample.exec_ok "s1" σ
      = (Normal tt, σ') ∧
    length (timers σ') = 1%nat ∧ consistent σ'.
Proof.
  intros σ.
  set (σ' := snd (executeScheduledFlow Sample.calc Sample.resolve
                    Sample.exec_ok "s1" σ)).
  assert (executeScheduledFlow Sample.calc Sample.resolve Sample.exec_ok
            "s1" σ = (Normal tt, σ')) as Hrun by (vm_compute; reflexivity).
  destruct (executeScheduledFlow_only_own_trigger Sample.calc Sample.resolve
              Sample.exec_ok "s1" σ _ σ' Hrun) as (Hlen & _ & _ & Hc).
  destruct (Hc (sample_registered_consistent _ _ _)) as [Hc' _].
  exists σ'. split; [exact Hrun|]. split; [exact Hlen|exact Hc'].
Defined.

Lemma absent_or_disabled_firing_skipped_witness :
  let σ := Sample.registered "gone"
             (Sample.store_of Sample.first_of_month true) [] in
  ∃ σ',
    executeScheduledFlow Sample.calc Sample.resolve Sample.exec_ok "gone" σ
      = (Normal tt, σ') ∧
    world σ' = world σ ∧ jobs σ' = jobs σ.
Proof.
  intros σ.
  destruct (absent_or_disabled_firing_skipped Sample.calc Sample.resolve
              Sample.exec_ok "gone" σ) as (σ' & Hrun & Hw & _ & Hj & _).
  - left. reflexivity.
  - exists σ'. split; [exact Hrun|]. split; [exact Hw|exact Hj].
Defined.

Lemma successful_firing_below_cap_witness :
  let σ := Sample.registered "s1"
             (Sample.store_of Sample.first_of_month true) [] in
  ∃ σ' s',
    executeScheduledFlow Sample.calc Sample.resolve Sample.exec_ok "s1" σ
      = (Normal tt, σ') ∧
    schedules (world σ') !! "s1" = Some s' ∧
    executionCount s' = 1 ∧ enabled s' = true ∧ jobs σ' = jobs σ.
Proof.
  intros σ.
  set (σ' := snd (executeScheduledFlow Sample.calc Sample.resolve
                    Sample.exec_ok "s1" σ)).
  set (s' := default Sample.first_of_month (schedules (world σ') !! "s1")).
  assert (executeScheduledFlow Sample.calc Sample.resolve Sample.exec_ok
            "s1" σ = (Normal tt, σ')) as Hrun by (vm_compute; reflexivity).
  assert (schedules (world σ') !! "s1" = Some s') as Hs'
    by (vm_compute; reflexivity).
  destruct (successful_firing_below_cap Sample.calc Sample.resolve
    Sample.exec_ok "s1" σ Sample.first_of_month σ' s')
    as (_ & Hec & _ & _ & Hen & _ & _ & Hj & _);
    [reflexivity|reflexivity|reflexivity|reflexivity|by left|exact Hrun|
     exact Hs'|vm_compute; reflexivity|].
  exists σ', s'. split; [exact Hrun|]. split; [exact Hs'|].
  split; [apply Hec; vm_compute; reflexivity|]. split; [exact Hen|exact Hj].
Defined.

Lemma initialize_registers_active_witness :
  let σ := Sample.fresh (Sample.store_of Sample.first_of_month true) [] in
  ∃ σ', initialize Sample.calc Sample.accept σ = (Normal tt, σ') ∧
    initialized σ' = true ∧ is_Some (jobs σ' !! "s1").
Proof.
  intros σ. set (σ' := snd (initialize Sample.calc Sample.accept σ)).
  assert (initialize Sample.calc Sample.accept σ = (Normal tt, σ')) as Hrun
    by (vm_compute; reflexivity).
  destruct (initialize_registers_active Sample.calc Sample.accept σ σ'
              eq_refl Hrun) as [Hflag Hjobs].
  exists σ'. split; [exact Hrun|]. split; [exact Hflag|].
  apply Hjobs. right. exists "s1", Sample.first_of_month.
  split; [reflexivity|]. split; [reflexivity|]. split; [reflexivity|].
  eexists. reflexivity.
Defined.

Lemma initialize_failure_keeps_flag_witness :
  let σ := Sample.fresh (Sample.store_of Sample.first_of_month true)
             [Some (Err "store unreachable")] in
  ∃ σ', initialize Sample.calc Sample.accept σ
          = (Throw (Err "store unreachable"), σ') ∧
        initialized σ' = false.
Proof.
  intros σ. set (σ' := snd (initialize Sample.calc Sample.accept σ)).
  assert (initialize Sample.calc Sample.accept σ
            = (Throw (Err "store unreachable"), σ')) as Hrun
    by (vm_compute; reflexivity).
  destruct (initialize_failure_keeps_flag Sample.calc Sample.accept σ _ σ'
              Hrun) as [_ Hflag].
  exists σ'. split; [exact Hrun|exact Hflag].
Defined.

Lemma reloadSchedule_follows_enabled_witness :
  let paused := set_enabled false Sample.first_of_month in
  let σ := Sample.registered "s1" (Sample.store_of paused true) [] in
  ∃ σ', reloadSchedule Sample.calc Sample.accept "s1" σ = (Normal tt, σ') ∧
    jobs σ !! "s1" = Some 0%nat ∧ jobs σ' !! "s1" = None.
Proof.
  intros paused σ.
  set (σ' := snd (reloadSchedule Sample.calc Sample.accept "s1" σ)).
  assert (reloadSchedule Sample.calc Sample.accept "s1" σ = (Normal tt, σ'))
    as Hrun by (vm_compute; reflexivity).
  destruct (reloadSchedule_follows_enabled Sample.calc Sample.accept "s1" σ
              paused σ' eq_refl eq_refl Hrun) as [Hiff _].
  exists σ'. split; [exact Hrun|]. split; [reflexivity|].
  destruct (jobs σ' !! "s1") as [h|] eqn:Hj; [|reflexivity].
  assert (enabled paused = true) as Hen by (apply Hiff; by eexists).
  discriminate Hen.
Defined.

Lemma service_stays_consistent_witness :
  let σ := Sample.registered "s1"
             (Sample.store_of Sample.first_of_month true) [] in
  let d := populate (world σ) Sample.first_of_month in
  consistent (snd (registerSchedule Sample.calc Sample.accept d σ)).
Proof.
  intros σ d.
  destruct (service_stays_consistent Sample.calc Sample.resolve
              Sample.exec_ok Sample.accept σ
              (sample_registered_consistent _ _ _)) as (Hreg & _).
  apply (Hreg d (fst (registerSchedule Sample.calc Sample.accept d σ))).
  by destruct (registerSchedule Sample.calc Sample.accept d σ).
Defined.

Lemma three_failures_pause_witness :
  let σ := Sample.registered "s1"
             (Sample.store_of Sample.first_of_month true) [] in
  ∃ σ1 σ2 σ3 s3,
    executeScheduledFlow Sample.calc Sample.resolve Sample.exec_fail "s1" σ
      = (Normal tt, σ1) ∧
    executeScheduledFlow Sample.calc Sample.resolve Sample.exec_fail "s1" σ1
      = (Normal tt, σ2) ∧
    executeScheduledFlow Sample.calc Sample.resolve Sample.exec_fail "s1" σ2
      = (Normal tt, σ3) ∧
    schedules (world σ3) !! "s1" = Some s3 ∧
    enabled s3 = false ∧ consecutiveFailures s3 = Some 3 ∧
    jobs σ3 !! "s1" = None.
Proof.
  intros σ.
  destruct (three_failures_pause Sample.calc Sample.resolve Sample.exec_fail
              "s1" σ Sample.first_of_month)
    as (σ1 & σ2 & σ3 & σ4 & s3 & E1 & E2 & E3 & Hs3 & Hen & Hcf & _ & Hj & _);
    [reflexivity|reflexivity|reflexivity|reflexivity|reflexivity|reflexivity
    | |
    |].
  - intros s now. by eexists.
  - intros f v u t i w. by eexists _, _.
  - exists σ1, σ2, σ3, s3. by repeat split.
Defined.

(** X18: the translation raises in four situations only: an unknown
    schedule type, an interval schedule with an unknown unit, a daily,
    weekly or monthly schedule without a time, and a weekly schedule
    without weekday numbers; a cron schedule never makes it raise. *)
Theorem toCronExpression_raises_only (s : Schedule) e :
  toCronExpression s = Throw e →
  (known_type (scheduleType s) = false ∧
   e = Err ("Unknown schedule type: " +:+ scheduleType s)) ∨
  (scheduleType s = "interval" ∧ known_unit (intervalUnit s) = false ∧
   e = Err ("Unknown interval unit: " +:+ intervalUnit s)) ∨
  (scheduleType s ∈ ["daily"; "weekly"; "monthly"] ∧ time s = None ∧
   ∃ msg, e = TypeError msg) ∨
  (scheduleType s = "weekly" ∧ daysOfWeek s = None ∧ ∃ msg, e = TypeError msg).
Proof.
  unfold toCronExpression.
  destruct (String.eqb_spec (scheduleType s) "cron") as [Hc|Hc]; [done|].
  destruct (String.eqb_spec (scheduleType s) "interval") as [Hi|Hi].
  - destruct (String.eqb_spec (intervalUnit s) "minutes") as [Hm|Hm]; [done|].
    destruct (String.eqb_spec (intervalUnit s) "hours") as [Hh|Hh]; [done|].
    destruct (String.eqb_spec (intervalUnit s) "days") as [Hd|Hd]; [done|].
    intros [= <-]. right. left. split; [done|]. split; [|done].
    apply bool_decide_eq_false. rewrite !elem_of_cons, elem_of_nil. tauto.
  - destruct (String.eqb_spec (scheduleType s) "daily") as [Hd|Hd].
    { destruct (time s); [done|]. intros [= <-]. right. right. left.
      rewrite Hd. split; [left|]. split; [done|by eexists]. }
    destruct (String.eqb_spec (scheduleType s) "weekly") as [Hw|Hw].
    { destruct (time s).
      - destruct (daysOfWeek s); [done|]. intros [= <-]. right. right. right.
        split; [done|]. split; [done|by eexists].
      - intros [= <-]. right. right. left. rewrite Hw.
        split; [right; left|]. split; [done|by eexists]. }
    destruct (String.eqb_spec (scheduleType s) "monthly") as [Hm|Hm].
    { destruct (time s); [done|]. intros [= <-]. right. right. left.
      rewrite Hm. split; [do 2 right; left|]. split; [done|by eexists]. }
    intros [= <-]. left. split; [|done].
    apply bool_decide_eq_false. rewrite !elem_of_cons, elem_of_nil. tauto.
Qed.

Lemma toCronExpression_raises_only_witness :
  known_type "yearly" = false.
Proof.
  destruct (toCronExpression_raises_only
              (Sample.typed "yearly" "" Sample.first_of_month)
              (Err "Unknown schedule type: yearly") eq_refl)
    as [[Hk _]|[(Hi & _)|[(_ & Ht & _)|(Hw & _)]]].
  - exact Hk.
  - discriminate Hi.
  - discriminate Ht.
  - discriminate Hw.
Defined.

Lemma successful_firing_times_witness :
  let s := Sample.capped 1 Sample.first_of_month in
  let σ := Sample.registered "s1" (Sample.store_of s true) [] in
  ∃ σ' s',
    executeScheduledFlow Sample.calc Sample.resolve Sample.exec_ok "s1" σ
      = (Normal tt, σ') ∧
    schedules (world σ') !! "s1" = Some s' ∧
    enabled s' = false ∧
    lastExecutedAt s' = Some (clock (world σ')) ∧
    is_Some (nextExecutionAt s').
Proof.
  intros s σ.
  set (σ' := snd (executeScheduledFlow Sample.calc Sample.resolve
                    Sample.exec_ok "s1" σ)).
  set (s' := default s (schedules (world σ') !! "s1")).
  assert (executeScheduledFlow Sample.calc Sample.resolve Sample.exec_ok
            "s1" σ = (Normal tt, σ')) as Hrun by (vm_compute; reflexivity).
  assert (schedules (world σ') !! "s1" = Some s') as Hs'
    by (vm_compute; reflexivity).
  destruct (successful_firing_times Sample.calc Sample.resolve
    Sample.exec_ok "s1" σ s σ' s')
    as (Hlast & arg & next & Hnext & _);
    [reflexivity|reflexivity|reflexivity|reflexivity|exact Hrun|
     exact Hs'|vm_compute; reflexivity|].
  exists σ', s'. split; [exact Hrun|]. split; [exact Hs'|].
  split; [vm_compute; reflexivity|]. split; [exact Hlast|].
  exists next. exact Hnext.
Defined.

Lemma reloadSchedule_one_trigger_witness :
  let σ := Sample.registered "s1"
             (Sample.store_of Sample.first_of_month true) [] in
  ∃ σ', reloadSchedule Sample.calc Sample.accept "s1" σ = (Normal tt, σ') ∧
    live_count "s1" σ' = 1%nat ∧ jobs σ' !! "s1" = Some 1%nat ∧
    length (timers σ') = 2%nat.
Proof.
  intros σ.
  set (σ' := snd (reloadSchedule Sample.calc Sample.accept "s1" σ)).
  assert (reloadSchedule Sample.calc Sample.accept "s1" σ = (Normal tt, σ'))
    as Hrun by (vm_compute; reflexivity).
  destruct (reloadSchedule_one_trigger Sample.calc Sample.accept "s1" σ
              Sample.first_of_month σ')
    as (Hone & Hj & _);
    [apply sample_registered_consistent|reflexivity|reflexivity|reflexivity|
     exact Hrun|].
  exists σ'. split; [exact Hrun|]. split; [exact Hone|].
  split; [exact Hj|vm_compute; reflexivity].
Defined.

Lemma register_then_unregister_witness :
  let σ := Sample.registered "s1"
             (Sample.store_of Sample.first_of_month true) [] in
  let d := populate (world σ) Sample.first_of_month in
  ∃ σ1 σ2 σu,
    registerSchedule Sample.calc Sample.accept d σ = (Normal tt, σ1) ∧
    unregisterSchedule "s1" σ1 = (Normal tt, σ2) ∧
    unregisterSchedule "s1" σ = (Normal tt, σu) ∧
    jobs σ2 = jobs σu ∧ live_count "s1" σ2 = live_count "s1" σu.
Proof.
  intros σ d.
  set (σ1 := snd (registerSchedule Sample.calc Sample.accept d σ)).
  set (σ2 := snd (unregisterSchedule "s1" σ1)).
  assert (registerSchedule Sample.calc Sample.accept d σ = (Normal tt, σ1))
    as H1 by (vm_compute; reflexivity).
  assert (unregisterSchedule "s1" σ1 = (Normal tt, σ2)) as H2
    by (vm_compute; reflexivity).
  destruct (register_then_unregister Sample.calc Sample.accept d σ σ1 σ2
              H1 H2) as (σu & Hu & Hj & _ & _ & Hcount).
  exists σ1, σ2, σu. split; [exact H1|]. split; [exact H2|].
  split; [exact Hu|]. split; [exact Hj|apply Hcount].
Defined.
